(** * Expo Router Babel plugins: a shallow embedding

    Source: [packages/babel-preset-expo/src/expo-router-plugin.ts].

    The file has two Babel plugins and the resolvers they call:
    - [getConfigMemo], [getExpoRouterImportMode], [getRouterDirectory],
      [getExpoRouterAbsoluteAppRoot], [getExpoRouterAppRoot]: resolvers over
      the process-wide state (the module variable [config] and
      [process.env]);
    - [expoRouterBabelPlugin]: a [MemberExpression] visitor that inlines
      [process.env.<NAME>] reads;
    - [expoRouterServerComponentClientReferencesPlugin]: a [Program] visitor
      for modules that carry the ["use client"] directive.

    Stateful code is written in a small state-and-exception monad over the
    process state; the Babel path API ([parentPath], [replaceWith]) becomes
    a recursive function that passes the parent's node type downwards. *)

From stdpp Require Import base option list strings gmap.
From Stdlib Require Import ZArith Ascii String.

Local Open Scope string_scope.

(** ** JavaScript values read from the project configuration *)

(** The values a JSON-like configuration can hold. Objects are association
    lists of own properties. *)
#[warnings="-register-all"]
Inductive jsval : Type :=
| VUndefined
| VNull
| VBool (b : bool)
| VNum (n : Z)
| VStr (s : string)
| VObj (fields : list (string * jsval)).

(** [if (v)]: JavaScript truthiness. *)
Definition truthy (v : jsval) : bool :=
  match v with
  | VUndefined | VNull => false
  | VBool b => b
  | VNum n => negb (n =? 0)%Z
  | VStr s => negb (s =? "")
  | VObj _ => true
  end.

(** [typeof v] *)
Definition typeof (v : jsval) : string :=
  match v with
  | VUndefined => "undefined"
  | VNull => "object"
  | VBool _ => "boolean"
  | VNum _ => "number"
  | VStr _ => "string"
  | VObj _ => "object"
  end.

Fixpoint assoc (k : string) (fs : list (string * jsval)) : jsval :=
  match fs with
  | [] => VUndefined
  | (k', v) :: fs' => if k' =? k then v else assoc k fs'
  end.

(** [o[k]] on an object (own properties); [undefined] on a primitive. *)
Definition get_prop (o : jsval) (k : string) : jsval :=
  match o with
  | VObj fs => assoc k fs
  | _ => VUndefined
  end.

(** [a ?? b] *)
Definition nullish (a b : jsval) : jsval :=
  match a with
  | VUndefined | VNull => b
  | _ => a
  end.

(** The comparison of [Array.prototype.includes] (SameValueZero). Two
    objects are equal only when they are the same reference; the arrays
    searched here hold primitives only, so an object never matches. *)
Definition sameValueZero (a b : jsval) : bool :=
  match a, b with
  | VUndefined, VUndefined => true
  | VNull, VNull => true
  | VBool x, VBool y => Bool.eqb x y
  | VNum x, VNum y => (x =? y)%Z
  | VStr x, VStr y => (x =? y)
  | _, _ => false
  end.

(** [a === b]; it differs from SameValueZero on [NaN] only, which the
    integer numbers of this model do not have. *)
Definition strict_eq (a b : jsval) : bool := sameValueZero a b.

Definition includes (l : list jsval) (v : jsval) : bool :=
  existsb (fun x => sameValueZero x v) l.

(** [String.prototype.toUpperCase] on ASCII letters. *)
Definition ascii_upper (c : ascii) : ascii :=
  let n := nat_of_ascii c in
  if (97 <=? n)%nat && (n <=? 122)%nat then ascii_of_nat (n - 32) else c.

Fixpoint toUpperCase (s : string) : string :=
  match s with
  | EmptyString => EmptyString
  | String c r => String (ascii_upper c) (toUpperCase r)
  end.

(** [String.prototype.startsWith] *)
Definition startsWith (p s : string) : bool := String.prefix p s.

(** ** Process state *)

(** The attributes of [getConfig(projectRoot).exp] the plugin reads, with
    the optional chains already taken: [exp.extra?.router?.asyncRoutes],
    [exp.extra?.router?.unstable_src] and [(exp.web || {}).output]. *)
Record ExpoConfig : Type := {
  asyncRoutes : jsval;
  unstable_src : jsval;
  web_output : jsval;
}.

Record ProjectConfig : Type := { exp : ExpoConfig }.

(** Module-level [let config] and [process.env]. *)
Record Process : Type := {
  config : option ProjectConfig;
  process_env : gmap string string;
}.

(** [process.env[k]] as a JavaScript value. *)
Definition env_get (st : Process) (k : string) : jsval :=
  match process_env st !! k with
  | Some s => VStr s
  | None => VUndefined
  end.

(** [if (process.env[k]) return process.env[k]]: the value when it is set
    and not the empty string. *)
Definition env_cached (st : Process) (k : string) : option string :=
  match process_env st !! k with
  | Some s => if s =? "" then None else Some s
  | None => None
  end.

(** [process.env[k] = v] *)
Definition env_set (k v : string) (st : Process) : Process :=
  {| config := config st; process_env := <[k := v]> (process_env st) |}.

(** ** External collaborators *)

(** Functions imported from other packages: [getConfig] of [expo/config],
    [fs.statSync(..)?.isDirectory()], [resolveFrom] (which throws when the
    module is not found: [None]) and [path.join], [path.relative],
    [path.dirname]. The properties below are relative to [getConfig] and
    [fs.statSync] returning. *)
Class Host : Type := {
  getConfig : string -> ProjectConfig;
  isDirectory : string -> bool;
  resolveFrom : string -> string -> option string;
  nodePath_join : string -> string -> string;
  nodePath_relative : string -> string -> string;
  nodePath_dirname : string -> string;
}.

(** ** The monad of the resolvers: state and exceptions *)

(** What a call can throw: an [Error] made by this file with its
    message; a [TypeError] of the runtime or of [@babel/types], whose text
    names the value or the field at fault and is not modelled; the error of
    [resolve-from] for a request it cannot resolve (code
    [MODULE_NOT_FOUND]). *)
Inductive exn : Type :=
| Error (message : string)
| TypeError
| ModuleNotFound (request : string).

Inductive result (A : Type) : Type :=
| Ok (a : A)
| Throw (e : exn).
Arguments Ok {A} a.
Arguments Throw {A} e.

Definition M (A : Type) : Type := Process -> result A * Process.

Definition ret {A} (a : A) : M A := fun st => (Ok a, st).

Definition bind {A B} (m : M A) (k : A -> M B) : M B :=
  fun st =>
    match m st with
    | (Ok a, st') => k a st'
    | (Throw msg, st') => (Throw msg, st')
    end.

Definition throw {A} (e : exn) : M A := fun st => (Throw e, st).
Definition get_state : M Process := fun st => (Ok st, st).
Definition put_state (st : Process) : M unit := fun _ => (Ok tt, st).

Declare Scope js_scope.
Delimit Scope js_scope with js.
Notation "x <- c1 ;; c2" := (bind c1 (fun x => c2))
  (at level 100, c1 at next level, right associativity) : js_scope.
Notation "c1 ;;; c2" := (bind c1 (fun _ => c2))
  (at level 100, right associativity) : js_scope.
Local Open Scope js_scope.

Section RouterPlugin.
Context {host : Host}.

(** [getConfigMemo]: lines 11-18. The cache is the single module
    variable [config]; [!config] holds only while it is [undefined]. *)
Definition getConfigMemo (projectRoot : string) : M ProjectConfig :=
  st <- get_state ;;
  let reload :=
    let c' := getConfig projectRoot in
    put_state {| config := Some c'; process_env := process_env st |} ;;;
    ret c' in
  match config st with
  | None => reload
  | Some c =>
      if truthy (env_get st "_EXPO_INTERNAL_TESTING") then reload else ret c
  end.

(** [process.env.NODE_ENV || process.env.BABEL_ENV] *)
Definition build_env (st : Process) : jsval :=
  if truthy (env_get st "NODE_ENV") then env_get st "NODE_ENV"
  else env_get st "BABEL_ENV".

(** Lines 29-38: the async-routes setting read from the configuration. *)
Definition asyncRoutesSetting (c : ProjectConfig) (platform : string) : jsval :=
  let asyncRoutes := asyncRoutes (exp c) in
  if truthy asyncRoutes then
    if typeof asyncRoutes =? "string" then asyncRoutes
    else if typeof asyncRoutes =? "object" then
      nullish (get_prop asyncRoutes platform) (get_prop asyncRoutes "default")
    else VUndefined
  else VUndefined.

(** Line 40: [[env, true].includes(asyncRoutesSetting) ? 'lazy' : 'sync'] *)
Definition candidate_mode (env setting : jsval) : string :=
  if includes [env; VBool true] setting then "lazy" else "sync".

Definition production_error : exn :=
  Error "Async routes are not supported in production yet. Set the `expo-router` Config Plugin prop `asyncRoutes` to `development`, `false`, or `undefined`.".

Definition import_mode_var (platform : string) : string :=
  "EXPO_ROUTER_IMPORT_MODE_" +:+ toUpperCase platform.

(** [getExpoRouterImportMode]: lines 20-60. *)
Definition getExpoRouterImportMode (projectRoot platform : string) : M string :=
  let envVar := import_mode_var platform in
  st <- get_state ;;
  match env_cached st envVar with
  | Some cached => ret cached
  | None =>
      let env := build_env st in
      c <- getConfigMemo projectRoot ;;
      let mode := candidate_mode env (asyncRoutesSetting c platform) in
      if strict_eq env (VStr "production") && (mode =? "lazy") then
        throw production_error
      else
        let mode :=
          if (platform =? "web")
             && strict_eq (web_output (exp c)) (VStr "static")
          then "sync" else mode in
        st' <- get_state ;;
        put_state (env_set envVar mode st') ;;;
        ret mode
  end.

(** [getRouterDirectory]: lines 62-75. *)
Definition getRouterDirectory (projectRoot : string) : string :=
  if isDirectory (nodePath_join projectRoot "src/app") then "./src/app"
  else "./app".

(** Line 101: [exp.extra?.router?.unstable_src || getRouterDirectory(projectRoot)] *)
Definition customSrc_of (c : ProjectConfig) (projectRoot : string) : jsval :=
  if truthy (unstable_src (exp c)) then unstable_src (exp c)
  else VStr (getRouterDirectory projectRoot).

(** [getExpoRouterAbsoluteAppRoot]: lines 96-110. A [customSrc] that is
    not a string has no [startsWith] method: line 102 throws a
    [TypeError]. *)
Definition getExpoRouterAbsoluteAppRoot (projectRoot : string) : M string :=
  st <- get_state ;;
  match env_cached st "EXPO_ROUTER_ABS_APP_ROOT" with
  | Some cached => ret cached
  | None =>
      c <- getConfigMemo projectRoot ;;
      match customSrc_of c projectRoot with
      | VStr customSrc =>
          let isAbsolute := startsWith "/" customSrc in
          let appFolder :=
            if isAbsolute then customSrc
            else nodePath_join projectRoot customSrc in
          st' <- get_state ;;
          put_state (env_set "EXPO_ROUTER_ABS_APP_ROOT" appFolder st') ;;;
          ret appFolder
      | _ => throw TypeError
      end
  end.

(** What [resolveFrom(projectRoot, 'expo-router/entry')] throws. *)
Definition resolve_error : exn := ModuleNotFound "expo-router/entry".

(** [getExpoRouterAppRoot]: lines 77-94. *)
Definition getExpoRouterAppRoot (projectRoot : string) : M string :=
  st <- get_state ;;
  match env_cached st "EXPO_ROUTER_APP_ROOT_2" with
  | Some cached => ret cached
  | None =>
      match resolveFrom projectRoot "expo-router/entry" with
      | None => throw resolve_error
      | Some routerEntry =>
          appFolder <- getExpoRouterAbsoluteAppRoot projectRoot ;;
          let appRoot :=
            nodePath_relative (nodePath_dirname routerEntry) appFolder in
          st' <- get_state ;;
          put_state (env_set "EXPO_ROUTER_APP_ROOT_2" appRoot st') ;;;
          ret appRoot
      end
  end.

(** ** The syntax tree seen by [expoRouterBabelPlugin] *)

(** What the field of a parent node accepts when [replaceWith] puts a
    literal there: [path.replaceWith] validates the new node against the
    field of the parent ([t.validate(parent, key, node)]) and throws a
    [TypeError] when it does not fit. Fields for expressions accept a literal
    ([AcceptsExpression]: call arguments, operands, initializers, the
    expression of a statement, ...). The others do not ([RejectsLiteral]):
    the fields that take an assignment target only ([ForOfStatement.left],
    [ForInStatement.left], [RestElement.argument], [AssignmentPattern.left],
    the elements of an [ArrayPattern]), the property of a member expression
    that is not computed, and statement lists. *)
Inductive field : Type :=
| AcceptsExpression
| RejectsLiteral.

(** The visitor looks at identifiers, member expressions and the node type
    of a parent; it builds string and boolean literals. Every other Babel
    node is an [OtherNode] with its child nodes in traversal order, each
    with the kind of field it stands in. *)
#[warnings="-register-all"]
Inductive node : Type :=
| Identifier (name : string)
| StringLiteral (value : string)
| BooleanLiteral (value : bool)
| MemberExpression (object property : node) (computed : bool)
| AssignmentExpression (operator : string) (left right : node)
| OtherNode (type : string) (children : list (field * node)).

(** The field of [MemberExpression.property]: an expression when the
    access is computed, an identifier otherwise. *)
Definition property_field (computed : bool) : field :=
  if computed then AcceptsExpression else RejectsLiteral.

(** [t.isIdentifier(n, { name })] *)
Definition isIdentifier (n : node) (name : string) : bool :=
  match n with
  | Identifier x => x =? name
  | _ => false
  end.

(** Lines 134-139: the visited member expression is [process.env]. *)
Definition is_process_env (n : node) : bool :=
  match n with
  | MemberExpression o p _ => isIdentifier o "process" && isIdentifier p "env"
  | _ => false
  end.

(** What [api.caller] and [state.file.opts] give the plugin. *)
Record Caller : Type := {
  platform : option string;
  possibleProjectRoot : option string;
  opts_root : option string;
}.

(** [a || b] on strings that may be [undefined]. *)
Definition or_else (a : option string) (b : string) : string :=
  match a with
  | Some s => if s =? "" then b else s
  | None => b
  end.

(** Line 146: [possibleProjectRoot || state.file.opts.root || ''] *)
Definition projectRoot_of (c : Caller) : string :=
  or_else (possibleProjectRoot c) (or_else (opts_root c) "").

Section Visitor.
Variable c : Caller.

(** [parent.replaceWith(replacement)] where [parent] stands in a field of
    kind [f]: the replacement takes the place of [parent], or the
    validation of the field throws. *)
Definition replaceWith (f : field) (replacement : node) : M node :=
  match f with
  | AcceptsExpression => ret replacement
  | RejectsLiteral => throw TypeError
  end.

(** Lines 149-203: the visitor body once [path.node] is [process.env] and
    its parent [parent] is a member expression. [property] is
    [parent.node.property], [inAssignment] is
    [parent.parentPath.isAssignmentExpression()] and [f] is the field
    [parent] stands in. The literal is built, resolver included, before
    [replaceWith] is called. The result is the node that stands where
    [parent] stood. *)
Definition env_read (inAssignment : bool) (f : field) (parent property : node)
  : M node :=
  let projectRoot := projectRoot_of c in
  st <- get_state ;;
  if isIdentifier property "EXPO_PROJECT_ROOT" && negb inAssignment then
    replaceWith f (StringLiteral projectRoot)
  else if isIdentifier property "EXPO_PUBLIC_USE_STATIC" && negb inAssignment
  then
    if strict_eq (from_option VStr VUndefined (platform c)) (VStr "web") then
      let isStatic :=
        strict_eq (env_get st "EXPO_PUBLIC_USE_STATIC") (VStr "true")
        || strict_eq (env_get st "EXPO_PUBLIC_USE_STATIC") (VStr "1") in
      replaceWith f (BooleanLiteral isStatic)
    else replaceWith f (BooleanLiteral false)
  else if negb (strict_eq (env_get st "NODE_ENV") (VStr "test"))
          && isIdentifier property "EXPO_ROUTER_ABS_APP_ROOT"
          && negb inAssignment
  then
    r <- getExpoRouterAbsoluteAppRoot projectRoot ;;
    replaceWith f (StringLiteral r)
  else if negb (strict_eq (env_get st "NODE_ENV") (VStr "test"))
          && isIdentifier property "EXPO_ROUTER_APP_ROOT"
          && negb inAssignment
  then
    r <- getExpoRouterAppRoot projectRoot ;;
    replaceWith f (StringLiteral r)
  else
    match platform c with
    | Some p =>
        if negb (p =? "")
           && isIdentifier property (import_mode_var p)
           && negb inAssignment
        then
          r <- getExpoRouterImportMode projectRoot p ;;
          replaceWith f (StringLiteral r)
        else ret parent
    | None => ret parent
    end.

(** The traversal. Babel enters a member expression before its children,
    object first. The visitor acts when it enters a [process.env] node
    whose parent is a member expression, and then works on that parent;
    here the same step is taken at the parent, with [parentIsAssignment]
    saying whether the parent's own parent is an assignment expression
    (either operand) and [f] the field the node stands in. A replaced
    parent is a literal and has no children; the children of [process.env]
    itself are two identifiers. *)
Fixpoint visit (parentIsAssignment : bool) (f : field) (n : node) : M node :=
  match n with
  | MemberExpression obj prop computed =>
      if is_process_env obj then
        n' <- env_read parentIsAssignment f n prop ;;
        match n' with
        | MemberExpression _ _ _ =>
            (* not replaced: the traversal goes on into the property *)
            prop' <- visit false (property_field computed) prop ;;
            ret (MemberExpression obj prop' computed)
        | _ => ret n'
        end
      else
        obj' <- visit false AcceptsExpression obj ;;
        prop' <- visit false (property_field computed) prop ;;
        ret (MemberExpression obj' prop' computed)
  | AssignmentExpression op l r =>
      l' <- visit true RejectsLiteral l ;;
      r' <- visit true AcceptsExpression r ;;
      ret (AssignmentExpression op l' r')
  | OtherNode ty children =>
      children' <-
        (fix visit_children (l : list (field * node))
           : M (list (field * node)) :=
           match l with
           | [] => ret []
           | (fx, x) :: l' =>
               x' <- visit false fx x ;;
               l'' <- visit_children l' ;;
               ret ((fx, x') :: l'')
           end) children ;;
      ret (OtherNode ty children')
  | Identifier _ | StringLiteral _ | BooleanLiteral _ => ret n
  end.

(** The children of a node whose type the visitor does not look at, in
    order. *)
Fixpoint visit_children (l : list (field * node)) : M (list (field * node)) :=
  match l with
  | [] => ret []
  | (fx, x) :: l' =>
      x' <- visit false fx x ;;
      l'' <- visit_children l' ;;
      ret ((fx, x') :: l'')
  end.

(** The statements of [Program.body], in order; the field takes
    statements only. *)
Fixpoint visit_all (l : list node) : M (list node) :=
  match l with
  | [] => ret []
  | x :: l' =>
      x' <- visit false RejectsLiteral x ;;
      l'' <- visit_all l' ;;
      ret (x' :: l'')
  end.

(** [expoRouterBabelPlugin] run on one file: [body] is the list of nodes
    under the [Program] node. *)
Definition expoRouterBabelPlugin (body : list node) : M (list node) :=
  visit_all body.

(** The name of a read the visitor has a literal for, given the value of
    [process.env.NODE_ENV]. *)
Definition recognized (nodeEnv : jsval) (name : string) : bool :=
  (name =? "EXPO_PROJECT_ROOT")
  || (name =? "EXPO_PUBLIC_USE_STATIC")
  || (negb (strict_eq nodeEnv (VStr "test"))
      && ((name =? "EXPO_ROUTER_ABS_APP_ROOT")
          || (name =? "EXPO_ROUTER_APP_ROOT")))
  || match platform c with
     | Some p => negb (p =? "") && (name =? import_mode_var p)
     | None => false
     end.

(** A member expression [process.env.<property>] that the visitor would
    replace. *)
Definition rewritable (nodeEnv : jsval) (inAssignment : bool) (property : node)
  : bool :=
  negb inAssignment
  && match property with
     | Identifier name => recognized nodeEnv name
     | _ => false
     end.

(** No member expression of the tree is one the visitor would replace. *)
Fixpoint settled (nodeEnv : jsval) (parentIsAssignment : bool) (n : node)
  : bool :=
  match n with
  | MemberExpression obj prop _ =>
      if is_process_env obj then
        negb (rewritable nodeEnv parentIsAssignment prop)
        && settled nodeEnv false prop
      else settled nodeEnv false obj && settled nodeEnv false prop
  | AssignmentExpression _ l r =>
      settled nodeEnv true l && settled nodeEnv true r
  | OtherNode _ children =>
      forallb (fun fx => settled nodeEnv false (snd fx)) children
  | Identifier _ | StringLiteral _ | BooleanLiteral _ => true
  end.

End Visitor.

(** [process.env.<name>] as a syntax tree. *)
Definition process_env_member (name : string) : node :=
  MemberExpression
    (MemberExpression (Identifier "process") (Identifier "env") false)
    (Identifier name) false.

Definition is_literal (n : node) : bool :=
  match n with
  | StringLiteral _ | BooleanLiteral _ => true
  | _ => false
  end.

End RouterPlugin.

(** ** The module seen by [expoRouterServerComponentClientReferencesPlugin] *)

(** Expressions: what the stubs are built from, and any other one. *)
#[warnings="-register-all"]
Inductive Expression : Type :=
| EIdentifier (name : string)
| EStringLiteral (value : string)
| EBooleanLiteral (value : bool)
| EObjectExpression (properties : list (string * Expression))
| EOther (type : string).

(** A node the plugin reads [.name] of: the [id] of a declarator or of a
    declaration, the [exported] node of a specifier. An identifier has a
    name; any other node there (an object or array pattern in
    [export const { a } = obj], a string literal in [export { a as "b" }])
    has none. *)
Inductive Binding : Type :=
| BIdentifier (name : string)
| BOther (type : string).

(** [b.name]: a string or [undefined]. *)
Definition name_of (b : Binding) : option string :=
  match b with
  | BIdentifier name => Some name
  | BOther _ => None
  end.

(** [t.variableDeclarator(id, init)] *)
Record VariableDeclarator : Type := {
  decl_id : Binding;
  decl_init : option Expression;
}.

(** The [declaration] of an [ExportNamedDeclaration]: a variable
    declaration, or a declaration with a single [id] (function, class,
    TypeScript namespace, ...). [inner] holds the statements of the body of
    a TypeScript namespace, the only declaration in which export
    declarations can stand; it is empty for the others. *)
Inductive Declaration (S : Type) : Type :=
| VariableDeclaration (kind : string) (declarations : list VariableDeclarator)
| NamedDeclaration (type : string) (id : Binding) (inner : list S).
Arguments VariableDeclaration {S} kind declarations.
Arguments NamedDeclaration {S} type id inner.

(** [export { local as exported }] *)
Record ExportSpecifier : Type := {
  spec_local : string;
  spec_exported : Binding;
}.

(** The value of an [ExportDefaultDeclaration]: a function or class
    declaration (named or not), or an expression such as an identifier. *)
Inductive DefaultDeclaration : Type :=
| DefaultFunction (id : option string)
| DefaultClass (id : option string)
| DefaultExpression (e : Expression).

(** Statements of a module. The fields the plugin tests for presence
    ([node.declaration], [node.specifiers]) are options. An
    [OtherStatement] carries the statements nested in it (the body of a
    TypeScript namespace that is not exported, for one). *)
#[warnings="-register-all"]
Inductive Statement : Type :=
| ExportNamedDeclaration (declaration : option (Declaration Statement))
    (specifiers : option (list ExportSpecifier))
| ExportDefaultDeclaration (declaration : option DefaultDeclaration)
| ExportAllDeclaration (source : string)
| OtherStatement (type : string) (inner : list Statement).

(** The [Program] node: [directives] holds each [directive.value.value]. *)
Record Program : Type := {
  directives : list string;
  body : list Statement;
}.

(** [{ entryPoint, exports }]; a name read from a node without [name] is
    [undefined] ([None]). *)
Record ClientReferences : Type := {
  entryPoint : string;
  exports : list (option string);
}.

(** [state.file.metadata]: the key this plugin writes. *)
Record Metadata : Type := {
  clientReferences : option ClientReferences;
}.

(** Lines 233-250: the names [path.traverse] pushes onto [exports] at one
    statement and below it. At an export declaration the visitor pushes
    first; the traversal then goes on into the declaration. *)
Fixpoint exports_of (s : Statement) : list (option string) :=
  let below :=
    fix below (l : list Statement) : list (option string) :=
      match l with
      | [] => []
      | x :: l' => (exports_of x ++ below l')%list
      end in
  match s with
  | ExportNamedDeclaration (Some (VariableDeclaration _ ds)) _ =>
      map (fun d => name_of (decl_id d)) ds
  | ExportNamedDeclaration (Some (NamedDeclaration _ id inner)) _ =>
      name_of id :: below inner
  | ExportNamedDeclaration None (Some specs) =>
      map (fun sp => name_of (spec_exported sp)) specs
  | ExportNamedDeclaration None None => []
  | ExportDefaultDeclaration (Some _) => [Some "default"]
  | ExportDefaultDeclaration None => []
  | ExportAllDeclaration _ => []
  | OtherStatement _ inner => below inner
  end.

(** Lines 231-251: [path.traverse] over the body, in source order. *)
Fixpoint collect_exports (l : list Statement) : list (option string) :=
  match l with
  | [] => []
  | s :: l' => (exports_of s ++ collect_exports l')%list
  end.

(** The object literal of lines 268-276 and 287-298. *)
Definition client_reference (outputKey exp : string) : Expression :=
  EObjectExpression
    [ ("$$typeof", EStringLiteral "react.client.reference");
      ("$$async", EBooleanLiteral false);
      ("$$id", EStringLiteral (outputKey +:+ "#" +:+ exp));
      ("name", EStringLiteral exp) ].

(** Lines 263-303: the statement pushed for one export name.
    [t.exportNamedDeclaration(declaration)] leaves [specifiers] empty. *)
Definition stub (outputKey exp : string) : Statement :=
  if exp =? "default" then
    ExportDefaultDeclaration
      (Some (DefaultExpression (client_reference outputKey "default")))
  else
    ExportNamedDeclaration
      (Some (VariableDeclaration "const"
               [ {| decl_id := BIdentifier exp;
                    decl_init := Some (client_reference outputKey exp) |} ]))
      (Some []).

(** Lines 262-304: [path.pushContainer('body', ..)] for each name. A name
    that is [undefined] is not ['default'], and [t.identifier(undefined)]
    of line 286 throws a [TypeError]: the builders of [@babel/types]
    validate their arguments. *)
Fixpoint push_stubs (outputKey : string) (names : list (option string))
    (body : list Statement) : result (list Statement) :=
  match names with
  | [] => Ok body
  | Some exp :: rest =>
      push_stubs outputKey rest (body ++ [stub outputKey exp])%list
  | None :: rest => Throw TypeError
  end.

Section ClientReferencesPlugin.
Context {host : Host}.

(** [expoRouterServerComponentClientReferencesPlugin]: the [Program]
    visitor, lines 219-312. [isServer] and [serverRoot] come from
    [api.caller]; [filename] is [state.file.opts.filename]. The result is
    the program and the file metadata after the visit, or what the visit
    throws. *)
Definition expoRouterServerComponentClientReferencesPlugin
    (isServer : bool) (serverRoot filename : string)
    (program : Program) (metadata : Metadata) : result (Program * Metadata) :=
  if negb (existsb (fun d => d =? "use client") (directives program)) then
    Ok (program, metadata)
  else
    let outputKey := "/" +:+ nodePath_relative serverRoot filename in
    let exports := collect_exports (body program) in
    if isServer then
      match push_stubs outputKey exports [] with
      | Ok stubs => Ok ({| directives := []; body := stubs |}, metadata)
      | Throw e => Throw e
      end
    else
      Ok (program,
          {| clientReferences :=
               Some {| entryPoint := outputKey; exports := exports |} |}).

End ClientReferencesPlugin.

(** ** Reading the generated stubs back *)

(** [obj.key] of an object literal. *)
Fixpoint object_property (key : string) (props : list (string * Expression))
  : option Expression :=
  match props with
  | [] => None
  | (k, v) :: rest => if k =? key then Some v else object_property key rest
  end.

(** The value a stub statement exports. *)
Definition exported_value (s : Statement) : option Expression :=
  match s with
  | ExportDefaultDeclaration (Some (DefaultExpression e)) => Some e
  | ExportNamedDeclaration (Some (VariableDeclaration _ [d])) _ => decl_init d
  | _ => None
  end.

Definition string_property (key : string) (s : Statement) : option string :=
  match exported_value s with
  | Some (EObjectExpression props) =>
      match object_property key props with
      | Some (EStringLiteral v) => Some v
      | _ => None
      end
  | _ => None
  end.

(** The [$$id] and [name] of the descriptor a stub statement exports. *)
Definition descriptor_id (s : Statement) : option string :=
  string_property "$$id" s.
Definition descriptor_name (s : Statement) : option string :=
  string_property "name" s.

(** The reference ids the specification derives from a manifest entry:
    [<entryPoint>#<exportName>] for each export name, in order; a name that
    is [undefined] has no reference id. *)
Definition manifest_ids (m : ClientReferences) : list (option string) :=
  map (option_map (fun name => entryPoint m +:+ "#" +:+ name)) (exports m).

(** Export nodes that push no name: an [export * from], a default export
    without a [declaration], a named export with neither [declaration] nor
    [specifiers]. *)
Definition unrecognized (s : Statement) : bool :=
  match s with
  | ExportNamedDeclaration None None => true
  | ExportDefaultDeclaration None => true
  | ExportAllDeclaration _ => true
  | _ => false
  end.

(** The names of a list when every one is defined. *)
Fixpoint defined_names (names : list (option string)) : option (list string) :=
  match names with
  | [] => Some []
  | Some name :: rest => option_map (cons name) (defined_names rest)
  | None :: _ => None
  end.

(** The metadata a run of the plugin leaves, when it returns. *)
Definition metadata_after (r : result (Program * Metadata)) : result Metadata :=
  match r with
  | Ok (_, metadata) => Ok metadata
  | Throw e => Throw e
  end.

(** ** Predicates on syntax trees and on the environment *)

(** Some node of the tree is a [process.env] member expression. *)
Fixpoint mentions_process_env (n : node) : bool :=
  is_process_env n
  || match n with
     | MemberExpression o p _ => mentions_process_env o || mentions_process_env p
     | AssignmentExpression _ l r =>
         mentions_process_env l || mentions_process_env r
     | OtherNode _ children =>
         existsb (fun fx => mentions_process_env (snd fx)) children
     | Identifier _ | StringLiteral _ | BooleanLiteral _ => false
     end.

(** [inlines c nodeEnv n n']: [n'] is [n] with some reads
    [process.env.<NAME>] of recognized names replaced by literals, and
    nothing else changed. *)
#[warnings="-register-all"]
Inductive inlines (c : Caller) (nodeEnv : jsval) : node -> node -> Prop :=
| inlines_same (n : node) : inlines c nodeEnv n n
| inlines_read (obj : node) (name : string) (computed : bool) (lit : node) :
    is_process_env obj = true ->
    recognized c nodeEnv name = true ->
    is_literal lit = true ->
    inlines c nodeEnv (MemberExpression obj (Identifier name) computed) lit
| inlines_member (o o' p p' : node) (computed : bool) :
    inlines c nodeEnv o o' -> inlines c nodeEnv p p' ->
    inlines c nodeEnv (MemberExpression o p computed)
      (MemberExpression o' p' computed)
| inlines_assignment (op : string) (l l' r r' : node) :
    inlines c nodeEnv l l' -> inlines c nodeEnv r r' ->
    inlines c nodeEnv (AssignmentExpression op l r)
      (AssignmentExpression op l' r')
| inlines_other (ty : string) (children children' : list (field * node)) :
    Forall2 (fun fx fx' => fst fx = fst fx' ∧ inlines c nodeEnv (snd fx) (snd fx'))
      children children' ->
    inlines c nodeEnv (OtherNode ty children) (OtherNode ty children').

(** The keys of [process.env] the resolvers write for a caller: lines 58,
    91 and 108. *)
Definition cache_key (c : Caller) (k : string) : bool :=
  (k =? "EXPO_ROUTER_ABS_APP_ROOT")
  || (k =? "EXPO_ROUTER_APP_ROOT_2")
  || match platform c with
     | Some p => k =? import_mode_var p
     | None => false
     end.

(** ** Concrete collaborators and inputs for the examples *)

Definition example_config (routes : jsval) (output : jsval) : ProjectConfig :=
  {| exp := {| asyncRoutes := routes; unstable_src := VUndefined;
               web_output := output |} |}.

(** [path.join], [path.dirname] and [path.relative] on absolute POSIX
    paths, for the example hosts: a path is cut at [/], empty and [.]
    segments are dropped and [..] removes the segment before it. *)
Fixpoint split_path (s cur : string) : list string :=
  match s with
  | EmptyString => [cur]
  | String ch r =>
      if Ascii.eqb ch "/" then cur :: split_path r ""
      else split_path r (cur +:+ String ch "")
  end.

Fixpoint normalize_segments (segs stack : list string) : list string :=
  match segs with
  | [] => rev stack
  | seg :: r =>
      if (seg =? "") || (seg =? ".") then normalize_segments r stack
      else if seg =? ".." then normalize_segments r (tail stack)
      else normalize_segments r (seg :: stack)
  end.

Definition path_segments (p : string) : list string :=
  normalize_segments (split_path p "") [].

Definition posix_join (a b : string) : string :=
  "/" +:+ String.concat "/" (path_segments (a +:+ "/" +:+ b)).

Definition posix_dirname (p : string) : string :=
  "/" +:+ String.concat "/" (removelast (path_segments p)).

Fixpoint drop_common (a b : list string) : list string * list string :=
  match a, b with
  | x :: a', y :: b' => if x =? y then drop_common a' b' else (a, b)
  | _, _ => (a, b)
  end.

Definition posix_relative (from to : string) : string :=
  let (ups, downs) := drop_common (path_segments from) (path_segments to) in
  String.concat "/" (map (fun _ => "..") ups ++ downs)%list.

(** A host whose configuration does not depend on the project root, with
    [expo-router] installed under the project root and no [src/app]
    directory. *)
Definition example_host (c : ProjectConfig) : Host :=
  {| getConfig := fun _ => c;
     isDirectory := fun _ => false;
     resolveFrom := fun root m =>
       Some (posix_join root ("node_modules/" +:+ m +:+ ".js"));
     nodePath_join := posix_join;
     nodePath_relative := posix_relative;
     nodePath_dirname := posix_dirname |}.

(** A host with one configuration per project root: [/a] asks for async
    routes, every other root does not. *)
Definition two_roots_host : Host :=
  {| getConfig := fun root =>
       if root =? "/a" then example_config (VStr "development") VUndefined
       else example_config VUndefined VUndefined;
     isDirectory := fun _ => false;
     resolveFrom := fun root m =>
       Some (posix_join root ("node_modules/" +:+ m +:+ ".js"));
     nodePath_join := posix_join;
     nodePath_relative := posix_relative;
     nodePath_dirname := posix_dirname |}.

(** A fresh process with the given environment variables. *)
Definition process_with (vars : list (string * string)) : Process :=
  {| config := None; process_env := list_to_map vars |}.

(** The caller of a web build of the project at [/p]. *)
Definition web_caller : Caller :=
  {| platform := Some "web"; possibleProjectRoot := Some "/p";
     opts_root := None |}.

(** [x = process.env.EXPO_PROJECT_ROOT;] *)
Definition assign_from_env : node :=
  OtherNode "ExpressionStatement"
    [ (AcceptsExpression,
       AssignmentExpression "=" (Identifier "x")
         (process_env_member "EXPO_PROJECT_ROOT")) ].

(** [x = process.env.EXPO_ROUTER_ABS_APP_ROOT;] *)
Definition assign_from_abs_app_root : node :=
  OtherNode "ExpressionStatement"
    [ (AcceptsExpression,
       AssignmentExpression "=" (Identifier "x")
         (process_env_member "EXPO_ROUTER_ABS_APP_ROOT")) ].

(** [process.env.<name>;] as a statement *)
Definition read_statement (name : string) : node :=
  OtherNode "ExpressionStatement"
    [ (AcceptsExpression, process_env_member name) ].

(** [console.log(process.env.EXPO_PROJECT_ROOT, process.env.EXPO_ROUTER_IMPORT_MODE_WEB);] *)
Definition log_env : node :=
  OtherNode "ExpressionStatement"
    [ (AcceptsExpression,
       OtherNode "CallExpression"
         [ (AcceptsExpression,
            MemberExpression (Identifier "console") (Identifier "log") false);
           (AcceptsExpression, process_env_member "EXPO_PROJECT_ROOT");
           (AcceptsExpression,
            process_env_member "EXPO_ROUTER_IMPORT_MODE_WEB") ]) ].

(** [console.log("/p", "lazy");] *)
Definition log_env_inlined : node :=
  OtherNode "ExpressionStatement"
    [ (AcceptsExpression,
       OtherNode "CallExpression"
         [ (AcceptsExpression,
            MemberExpression (Identifier "console") (Identifier "log") false);
           (AcceptsExpression, StringLiteral "/p");
           (AcceptsExpression, StringLiteral "lazy") ]) ].

(** [for (process.env.EXPO_PROJECT_ROOT of xs) {}] *)
Definition for_of_env : node :=
  OtherNode "ForOfStatement"
    [ (RejectsLiteral, process_env_member "EXPO_PROJECT_ROOT");
      (AcceptsExpression, Identifier "xs");
      (RejectsLiteral, OtherNode "BlockStatement" []) ].

(** ['use client'; export const a = 1, b = 2; export default function Foo() {}] *)
Definition client_module : Program :=
  {| directives := ["use client"];
     body :=
       [ ExportNamedDeclaration
           (Some (VariableDeclaration "const"
                    [ {| decl_id := BIdentifier "a";
                         decl_init := Some (EOther "NumericLiteral") |};
                      {| decl_id := BIdentifier "b";
                         decl_init := Some (EOther "NumericLiteral") |} ]))
           (Some []);
         ExportDefaultDeclaration (Some (DefaultFunction (Some "Foo"))) ] |}.

(** ['use client'; export const { a, b } = obj;] *)
Definition destructuring_module : Program :=
  {| directives := ["use client"];
     body :=
       [ ExportNamedDeclaration
           (Some (VariableDeclaration "const"
                    [ {| decl_id := BOther "ObjectPattern";
                         decl_init := Some (EIdentifier "obj") |} ]))
           (Some []) ] |}.

(** ['use client'; export namespace N { export const x = 1; }] *)
Definition namespace_module : Program :=
  {| directives := ["use client"];
     body :=
       [ ExportNamedDeclaration
           (Some (NamedDeclaration "TSModuleDeclaration" (BIdentifier "N")
                    [ ExportNamedDeclaration
                        (Some (VariableDeclaration "const"
                                 [ {| decl_id := BIdentifier "x";
                                      decl_init :=
                                        Some (EOther "NumericLiteral") |} ]))
                        (Some []) ]))
           (Some []) ] |}.

(** ['use client'; const foo = 1; export default foo;] *)
Definition default_identifier_module : Program :=
  {| directives := ["use client"];
     body :=
       [ OtherStatement "VariableDeclaration" [];
         ExportDefaultDeclaration (Some (DefaultExpression (EIdentifier "foo"))) ] |}.

(** [export const a = 1;] without a directive. *)
Definition server_module : Program :=
  {| directives := [];
     body :=
       [ ExportNamedDeclaration
           (Some (VariableDeclaration "const"
                    [ {| decl_id := BIdentifier "a";
                         decl_init := Some (EOther "NumericLiteral") |} ]))
           (Some []) ] |}.

Definition no_metadata : Metadata := {| clientReferences := None |}.

(** A project without [expo-router] installed. *)
Definition bare_host (c : ProjectConfig) : Host :=
  {| getConfig := fun _ => c;
     isDirectory := fun _ => false;
     resolveFrom := fun _ _ => None;
     nodePath_join := posix_join;
     nodePath_relative := posix_relative;
     nodePath_dirname := posix_dirname |}.

(** A configuration with [extra.router.unstable_src]. *)
Definition custom_src_config (src : jsval) : ProjectConfig :=
  {| exp := {| asyncRoutes := VUndefined; unstable_src := src;
               web_output := VUndefined |} |}.

(** [console.log("ready");] *)
Definition log_ready : node :=
  OtherNode "ExpressionStatement"
    [ (AcceptsExpression,
       OtherNode "CallExpression"
         [ (AcceptsExpression,
            MemberExpression (Identifier "console") (Identifier "log") false);
           (AcceptsExpression, StringLiteral "ready") ]) ].

(** The configuration [getConfigMemo] returns in state [st]. *)
Definition resolved_config {host : Host} (projectRoot : string) (st : Process)
  : ProjectConfig :=
  match config st with
  | None => getConfig projectRoot
  | Some c =>
      if truthy (env_get st "_EXPO_INTERNAL_TESTING") then getConfig projectRoot
      else c
  end.

(** The state [getConfigMemo] leaves behind. *)
Definition with_config {host : Host} (projectRoot : string) (st : Process)
  : Process :=
  {| config := Some (resolved_config projectRoot st);
     process_env := process_env st |}.

(** * Properties *)

Section ConfigResolver.
Context {host : Host}.

Lemma getConfigMemo_run (projectRoot : string) (st : Process) :
  getConfigMemo projectRoot st =
    (Ok (resolved_config projectRoot st),
     {| config := Some (resolved_config projectRoot st);
        process_env := process_env st |}).
Proof.
  unfold getConfigMemo, resolved_config, bind, get_state, put_state, ret.
  destruct st as [[c|] e]; simpl; [|reflexivity].
  destruct (truthy _); reflexivity.
Qed.

Lemma getExpoRouterImportMode_run (projectRoot platform : string) (st : Process) :
  getExpoRouterImportMode projectRoot platform st =
    match env_cached st (import_mode_var platform) with
    | Some m => (Ok m, st)
    | None =>
        let c := resolved_config projectRoot st in
        let mode := candidate_mode (build_env st) (asyncRoutesSetting c platform) in
        if strict_eq (build_env st) (VStr "production") && (mode =? "lazy")
        then (Throw production_error, with_config projectRoot st)
        else
          let mode' :=
            if (platform =? "web") && strict_eq (web_output (exp c)) (VStr "static")
            then "sync" else mode in
          (Ok mode',
           env_set (import_mode_var platform) mode' (with_config projectRoot st))
    end.
Proof.
  unfold getExpoRouterImportMode.
  unfold bind at 1. unfold get_state at 1.
  destruct (env_cached st (import_mode_var platform)) as [m|]; [reflexivity|].
  unfold bind at 1. rewrite getConfigMemo_run.
  fold (with_config projectRoot st).
  cbv zeta.
  destruct (strict_eq (build_env st) (VStr "production") && _); reflexivity.
Qed.

Lemma resolved_config_after (r1 r2 : string) (st : Process) :
  resolved_config r2 (with_config r1 st) =
    if truthy (env_get st "_EXPO_INTERNAL_TESTING") then getConfig r2
    else resolved_config r1 st.
Proof. reflexivity. Qed.

Lemma candidate_mode_cases (env setting : jsval) :
  candidate_mode env setting = "lazy" ∨ candidate_mode env setting = "sync".
Proof. unfold candidate_mode. destruct (includes _ _); auto. Qed.

Lemma strict_eq_refl_str (s : string) : strict_eq (VStr s) (VStr s) = true.
Proof. apply String.eqb_refl. Qed.

(** C10 (amended). [getConfigMemo] keeps one process-wide slot that is not
    keyed by the project root. Without the test flag, the first call fills
    the slot with [getConfig] of its own root when the slot is empty, and a
    later call returns the slot's value unchanged whatever root it is given.
    With [_EXPO_INTERNAL_TESTING] set, every call returns [getConfig] of its
    own root. *)
Theorem getConfigMemo_single_slot (st : Process) (r1 r2 : string) :
  let run1 := getConfigMemo r1 st in
  let run2 := getConfigMemo r2 (snd run1) in
  if truthy (env_get st "_EXPO_INTERNAL_TESTING")
  then fst run1 = Ok (getConfig r1) ∧ fst run2 = Ok (getConfig r2)
  else fst run2 = fst run1 ∧ snd run2 = snd run1
       ∧ match config st with
         | None => fst run1 = Ok (getConfig r1)
         | Some c => fst run1 = Ok c
         end.
Proof.
  cbv zeta. rewrite (getConfigMemo_run r1 st). cbn [fst snd].
  fold (with_config r1 st). rewrite getConfigMemo_run. cbn [fst snd].
  pose proof (resolved_config_after r1 r2 st) as Hafter.
  destruct (truthy (env_get st "_EXPO_INTERNAL_TESTING")) eqn:Hflag.
  - rewrite Hafter. split; [|reflexivity].
    unfold resolved_config. rewrite Hflag. destruct (config st); reflexivity.
  - rewrite Hafter. repeat split; unfold resolved_config; rewrite Hflag;
      destruct (config st); reflexivity.
Qed.

(** C2 (amended). In a production build with no override cached for the
    platform, [getExpoRouterImportMode] never returns ["lazy"]: it throws
    the configuration error when the setting selects lazy and returns
    ["sync"] otherwise. A cached override is returned as it is, in any
    environment. *)
Theorem import_mode_in_production (projectRoot platform : string) (st : Process) :
  build_env st = VStr "production" ->
  match env_cached st (import_mode_var platform) with
  | Some m => getExpoRouterImportMode projectRoot platform st = (Ok m, st)
  | None =>
      let c := resolved_config projectRoot st in
      let r := fst (getExpoRouterImportMode projectRoot platform st) in
      r ≠ Ok "lazy"
      ∧ r = if candidate_mode (build_env st) (asyncRoutesSetting c platform)
               =? "lazy"
            then Throw production_error else Ok "sync"
  end.
Proof.
  intros Henv. rewrite getExpoRouterImportMode_run.
  destruct (env_cached st (import_mode_var platform)); [reflexivity|].
  cbv zeta. rewrite Henv, strict_eq_refl_str. simpl andb.
  destruct (candidate_mode_cases (VStr "production")
              (asyncRoutesSetting (resolved_config projectRoot st) platform))
    as [-> | ->]; simpl.
  - split; [discriminate | reflexivity].
  - destruct (_ && _); split; (discriminate || reflexivity).
Qed.

(** C3 (amended). With no override cached, a production build whose
    candidate mode is ["lazy"] makes [getExpoRouterImportMode] throw the
    configuration error, and [process.env] is left as it was. The setting
    ["development"] in a production build gives the candidate ["sync"]:
    the call returns ["sync"] and caches it. *)
Theorem production_lazy_throws (projectRoot platform : string) (st : Process) :
  build_env st = VStr "production" ->
  env_cached st (import_mode_var platform) = None ->
  (candidate_mode (build_env st)
     (asyncRoutesSetting (resolved_config projectRoot st) platform) = "lazy" ->
   ∃ st', getExpoRouterImportMode projectRoot platform st
            = (Throw production_error, st')
          ∧ process_env st' = process_env st)
  ∧ (asyncRoutes (exp (resolved_config projectRoot st)) = VStr "development" ->
     ∃ st', getExpoRouterImportMode projectRoot platform st = (Ok "sync", st')
            ∧ process_env st' !! import_mode_var platform = Some "sync").
Proof.
  intros Henv Hnone. rewrite getExpoRouterImportMode_run, Hnone. cbv zeta.
  rewrite Henv, strict_eq_refl_str. simpl andb. split.
  - intros ->. simpl. eexists. split; reflexivity.
  - intros Hroutes. unfold asyncRoutesSetting. rewrite Hroutes.
    change (candidate_mode (VStr "production") _) with "sync".
    change ("sync" =? "lazy") with false. cbv iota.
    assert (Hsync : ∀ b : bool, (if b then "sync" else "sync") = "sync")
      by (intros []; reflexivity).
    rewrite Hsync. eexists. split; [reflexivity|]. apply lookup_insert_eq.
Qed.

(** C4 (amended). For the web platform with web output ["static"] and no
    override cached, [getExpoRouterImportMode] returns ["sync"] and caches
    it for every async-routes setting, except that the production check
    comes first: a production build whose candidate is ["lazy"] throws. *)
Theorem web_static_sync (projectRoot : string) (st : Process) :
  env_cached st (import_mode_var "web") = None ->
  web_output (exp (resolved_config projectRoot st)) = VStr "static" ->
  let c := resolved_config projectRoot st in
  let mode := candidate_mode (build_env st) (asyncRoutesSetting c "web") in
  getExpoRouterImportMode projectRoot "web" st =
    if strict_eq (build_env st) (VStr "production") && (mode =? "lazy")
    then (Throw production_error, with_config projectRoot st)
    else (Ok "sync",
          env_set (import_mode_var "web") "sync"
            (with_config projectRoot st)).
Proof.
  intros Hnone Hstatic. rewrite getExpoRouterImportMode_run, Hnone. cbv zeta.
  rewrite Hstatic. reflexivity.
Qed.

End ConfigResolver.


Section AppRootResolver.
Context {host : Host}.

(** What [getExpoRouterAbsoluteAppRoot] returns and leaves behind. *)
Lemma getExpoRouterAbsoluteAppRoot_run (projectRoot : string) (st : Process) :
  getExpoRouterAbsoluteAppRoot projectRoot st =
    match env_cached st "EXPO_ROUTER_ABS_APP_ROOT" with
    | Some m => (Ok m, st)
    | None =>
        match customSrc_of (resolved_config projectRoot st) projectRoot with
        | VStr customSrc =>
            let appFolder :=
              if startsWith "/" customSrc then customSrc
              else nodePath_join projectRoot customSrc in
            (Ok appFolder,
             env_set "EXPO_ROUTER_ABS_APP_ROOT" appFolder
               (with_config projectRoot st))
        | _ => (Throw TypeError, with_config projectRoot st)
        end
    end.
Proof.
  unfold getExpoRouterAbsoluteAppRoot.
  unfold bind at 1. unfold get_state at 1.
  destruct (env_cached st "EXPO_ROUTER_ABS_APP_ROOT") as [m|]; [reflexivity|].
  unfold bind at 1. rewrite getConfigMemo_run.
  fold (with_config projectRoot st).
  destruct (customSrc_of (resolved_config projectRoot st) projectRoot);
    reflexivity.
Qed.

Lemma env_get_env_set_ne (k k' v : string) (st : Process) :
  k ≠ k' -> env_get (env_set k v st) k' = env_get st k'.
Proof.
  intros Hne. unfold env_get, env_set. simpl.
  rewrite lookup_insert_ne by exact Hne. reflexivity.
Qed.

Lemma import_mode_var_not_node_env (p : string) : import_mode_var p ≠ "NODE_ENV".
Proof. unfold import_mode_var. simpl. discriminate. Qed.

(** The resolvers write their own cache keys only: [NODE_ENV] is left as
    it was. *)
Lemma getExpoRouterAbsoluteAppRoot_node_env projectRoot st r st' :
  getExpoRouterAbsoluteAppRoot projectRoot st = (r, st') ->
  env_get st' "NODE_ENV" = env_get st "NODE_ENV"
  ∧ ((∃ s, r = Ok s) ∨ r = Throw TypeError).
Proof.
  rewrite getExpoRouterAbsoluteAppRoot_run.
  destruct (env_cached st _); [intros [= <- <-]; eauto|].
  destruct (customSrc_of _ _); intros [= <- <-]; eauto.
  rewrite env_get_env_set_ne by discriminate. eauto.
Qed.

Lemma getExpoRouterAppRoot_node_env projectRoot st r st' :
  getExpoRouterAppRoot projectRoot st = (r, st') ->
  env_get st' "NODE_ENV" = env_get st "NODE_ENV"
  ∧ ((∃ s, r = Ok s) ∨ r = Throw resolve_error ∨ r = Throw TypeError).
Proof.
  unfold getExpoRouterAppRoot.
  unfold bind at 1. unfold get_state at 1.
  destruct (env_cached st "EXPO_ROUTER_APP_ROOT_2").
  - intros [= <- <-]. eauto.
  - destruct (resolveFrom projectRoot "expo-router/entry").
    + unfold bind at 1.
      destruct (getExpoRouterAbsoluteAppRoot projectRoot st) as [ra sta] eqn:Ha.
      apply getExpoRouterAbsoluteAppRoot_node_env in Ha as [Hne [[a ->] | ->]].
      * intros [= <- <-].
        rewrite env_get_env_set_ne by discriminate. eauto.
      * intros [= <- <-]. eauto.
    + intros [= <- <-]. eauto.
Qed.

Lemma getExpoRouterImportMode_node_env projectRoot p st r st' :
  getExpoRouterImportMode projectRoot p st = (r, st') ->
  env_get st' "NODE_ENV" = env_get st "NODE_ENV"
  ∧ ((∃ s, r = Ok s) ∨ r = Throw production_error).
Proof.
  rewrite getExpoRouterImportMode_run.
  destruct (env_cached st (import_mode_var p)).
  - intros [= <- <-]. eauto.
  - cbv zeta. destruct (_ && _).
    + intros [= <- <-]. eauto.
    + intros [= <- <-].
      rewrite env_get_env_set_ne by apply import_mode_var_not_node_env. eauto.
Qed.

End AppRootResolver.

Section EnvInliningPass.
Context {host : Host}.
Variable c : Caller.

Lemma bind_ok {A B} (m : M A) (k : A -> M B) st b st' :
  bind m k st = (Ok b, st') ->
  ∃ a st1, m st = (Ok a, st1) ∧ k a st1 = (Ok b, st').
Proof.
  unfold bind. destruct (m st) as [[a|msg] st1]; [eauto | discriminate].
Qed.

Lemma bind_run {A B} (m : M A) (k : A -> M B) st a st1 :
  m st = (Ok a, st1) -> bind m k st = k a st1.
Proof. unfold bind. intros ->. reflexivity. Qed.

Lemma replaceWith_result (f : field) (lit : node) st r st' :
  replaceWith f lit st = (r, st') ->
  st' = st ∧ (r = Ok lit ∧ f = AcceptsExpression
              ∨ r = Throw TypeError ∧ f = RejectsLiteral).
Proof. destruct f; intros [= <- <-]; auto. Qed.

(** A read that is not [rewritable] is left where it is, and nothing
    is resolved or cached. *)
Lemma env_read_skip (inAssignment : bool) (f : field) (parent property : node)
    (st : Process) :
  rewritable c (env_get st "NODE_ENV") inAssignment property = false ->
  env_read c inAssignment f parent property st = (Ok parent, st).
Proof.
  unfold rewritable, env_read, recognized.
  unfold bind at 1. unfold get_state at 1.
  destruct inAssignment; simpl.
  - intros _. destruct (platform c); rewrite !andb_false_r; reflexivity.
  - destruct property; simpl;
      try (intros _; destruct (platform c); rewrite ?andb_false_r; reflexivity).
    rewrite !andb_true_r.
    intros H. apply orb_false_iff in H as [H Hp].
    apply orb_false_iff in H as [H Happ].
    apply orb_false_iff in H as [-> ->].
    destruct (negb (strict_eq (env_get st "NODE_ENV") (VStr "test"))); simpl in *.
    + apply orb_false_iff in Happ as [-> ->].
      destruct (platform c); [rewrite Hp|]; reflexivity.
    + destruct (platform c); [rewrite Hp|]; reflexivity.
Qed.

(** The equations of [env_read] for the five names, under a parent that is
    not an assignment. *)
Lemma env_read_project_root (f : field) (parent : node) (st : Process) :
  env_read c false f parent (Identifier "EXPO_PROJECT_ROOT") st =
    replaceWith f (StringLiteral (projectRoot_of c)) st.
Proof. reflexivity. Qed.

Lemma env_read_use_static (f : field) (parent : node) (st : Process) :
  env_read c false f parent (Identifier "EXPO_PUBLIC_USE_STATIC") st =
    replaceWith f
      (BooleanLiteral
         (strict_eq (from_option VStr VUndefined (platform c)) (VStr "web")
          && (strict_eq (env_get st "EXPO_PUBLIC_USE_STATIC") (VStr "true")
              || strict_eq (env_get st "EXPO_PUBLIC_USE_STATIC") (VStr "1"))))
      st.
Proof.
  unfold env_read. unfold bind at 1. unfold get_state at 1. simpl.
  destruct (strict_eq _ (VStr "web")); reflexivity.
Qed.

Lemma env_read_abs_app_root (f : field) (parent : node) (st : Process) :
  strict_eq (env_get st "NODE_ENV") (VStr "test") = false ->
  env_read c false f parent (Identifier "EXPO_ROUTER_ABS_APP_ROOT") st =
    (r <- getExpoRouterAbsoluteAppRoot (projectRoot_of c) ;;
     replaceWith f (StringLiteral r)) st.
Proof.
  intros Hne. unfold env_read. unfold bind at 1. unfold get_state at 1.
  rewrite Hne. reflexivity.
Qed.

Lemma env_read_app_root (f : field) (parent : node) (st : Process) :
  strict_eq (env_get st "NODE_ENV") (VStr "test") = false ->
  env_read c false f parent (Identifier "EXPO_ROUTER_APP_ROOT") st =
    (r <- getExpoRouterAppRoot (projectRoot_of c) ;;
     replaceWith f (StringLiteral r)) st.
Proof.
  intros Hne. unfold env_read. unfold bind at 1. unfold get_state at 1.
  rewrite Hne. reflexivity.
Qed.

Lemma env_read_import_mode (p : string) (f : field) (parent : node)
    (st : Process) :
  platform c = Some p -> p ≠ "" ->
  env_read c false f parent (Identifier (import_mode_var p)) st =
    (r <- getExpoRouterImportMode (projectRoot_of c) p ;;
     replaceWith f (StringLiteral r)) st.
Proof.
  intros Hp Hne. unfold env_read. unfold bind at 1. unfold get_state at 1.
  rewrite Hp. apply String.eqb_neq in Hne.
  change (isIdentifier (Identifier (import_mode_var p)) "EXPO_PROJECT_ROOT")
    with false.
  change (isIdentifier (Identifier (import_mode_var p)) "EXPO_PUBLIC_USE_STATIC")
    with false.
  change (isIdentifier (Identifier (import_mode_var p)) "EXPO_ROUTER_ABS_APP_ROOT")
    with false.
  change (isIdentifier (Identifier (import_mode_var p)) "EXPO_ROUTER_APP_ROOT")
    with false.
  change (isIdentifier (Identifier (import_mode_var p)) (import_mode_var p))
    with (import_mode_var p =? import_mode_var p).
  rewrite Hne, String.eqb_refl, !andb_false_r. reflexivity.
Qed.

(** A [rewritable] read is replaced by a literal when its field accepts
    one; otherwise, or when the resolver it needs throws, the visit
    throws. [NODE_ENV] is the same afterwards. *)
Lemma env_read_replace (f : field) (parent property : node) (st : Process)
    r st' :
  rewritable c (env_get st "NODE_ENV") false property = true ->
  env_read c false f parent property st = (r, st') ->
  env_get st' "NODE_ENV" = env_get st "NODE_ENV"
  ∧ match r with
    | Ok n' => is_literal n' = true ∧ f = AcceptsExpression
    | Throw e =>
        e = production_error ∨ e = resolve_error ∨ e = TypeError
    end.
Proof.
  assert (Hrw : ∀ lit s r0 s', is_literal lit = true ->
            replaceWith f lit s = (r0, s') ->
            s' = s ∧ match r0 with
                     | Ok n' => is_literal n' = true ∧ f = AcceptsExpression
                     | Throw e =>
                         e = production_error ∨ e = resolve_error
                         ∨ e = TypeError
                     end).
  { intros lit s r0 s' Hlit H.
    apply replaceWith_result in H as [-> [[-> ->] | [-> ->]]]; auto. }
  unfold rewritable, env_read, recognized.
  unfold bind at 1. unfold get_state at 1.
  destruct property; simpl; try discriminate.
  rewrite !andb_true_r.
  destruct (name =? "EXPO_PROJECT_ROOT"); simpl.
  { intros _ H. apply Hrw in H as [-> H]; auto. }
  destruct (name =? "EXPO_PUBLIC_USE_STATIC"); simpl.
  { intros _. destruct (strict_eq _ (VStr "web")); intros H;
      apply Hrw in H as [-> H]; auto. }
  destruct (negb (strict_eq (env_get st "NODE_ENV") (VStr "test"))); simpl.
  - destruct (name =? "EXPO_ROUTER_ABS_APP_ROOT"); simpl.
    { intros _. unfold bind.
      destruct (getExpoRouterAbsoluteAppRoot _ st) as [ra sta] eqn:Ha.
      apply getExpoRouterAbsoluteAppRoot_node_env in Ha as [Hne [[a ->] | ->]].
      - intros H. apply Hrw in H as [-> H]; auto.
      - intros [= <- <-]. auto. }
    destruct (name =? "EXPO_ROUTER_APP_ROOT"); simpl.
    { intros _. unfold bind.
      destruct (getExpoRouterAppRoot _ st) as [ra sta] eqn:Ha.
      apply getExpoRouterAppRoot_node_env in Ha
        as [Hne [[a ->] | [-> | ->]]].
      - intros H. apply Hrw in H as [-> H]; auto.
      - intros [= <- <-]. auto.
      - intros [= <- <-]. auto. }
    destruct (platform c) as [p|]; [|discriminate].
    rewrite andb_true_r. intros ->. unfold bind.
    destruct (getExpoRouterImportMode _ p st) as [ra sta] eqn:Ha.
    apply getExpoRouterImportMode_node_env in Ha as [Hne [[a ->] | ->]].
    + intros H. apply Hrw in H as [-> H]; auto.
    + intros [= <- <-]. auto.
  - destruct (platform c) as [p|]; [|discriminate].
    rewrite andb_true_r. intros ->. unfold bind.
    destruct (getExpoRouterImportMode _ p st) as [ra sta] eqn:Ha.
    apply getExpoRouterImportMode_node_env in Ha as [Hne [[a ->] | ->]].
    + intros H. apply Hrw in H as [-> H]; auto.
    + intros [= <- <-]. auto.
Qed.

(** Induction on syntax trees, with the hypothesis for every child of an
    [OtherNode]. *)
Lemma node_ind' (P : node -> Prop) :
  (∀ name, P (Identifier name)) ->
  (∀ value, P (StringLiteral value)) ->
  (∀ value, P (BooleanLiteral value)) ->
  (∀ o p computed, P o -> P p -> P (MemberExpression o p computed)) ->
  (∀ op l r, P l -> P r -> P (AssignmentExpression op l r)) ->
  (∀ ty children,
     Forall (fun fx => P (snd fx)) children -> P (OtherNode ty children)) ->
  ∀ n, P n.
Proof.
  intros HId HStr HBool HMem HAsg HOther.
  fix rec 1. intros [name|value|value|o p computed|op l r|ty children].
  - apply HId.
  - apply HStr.
  - apply HBool.
  - apply HMem; apply rec.
  - apply HAsg; apply rec.
  - apply HOther. revert children.
    fix all 1. intros [|[fx x] l]; constructor; [apply rec | apply all].
Qed.

Lemma visit_OtherNode (b : bool) (f : field) (ty : string)
    (children : list (field * node)) :
  visit c b f (OtherNode ty children) =
    (children' <- visit_children c children ;; ret (OtherNode ty children')).
Proof. reflexivity. Qed.

Lemma visit_MemberExpression (b : bool) (f : field) (obj prop : node)
    (computed : bool) :
  visit c b f (MemberExpression obj prop computed) =
    if is_process_env obj then
      n' <- env_read c b f (MemberExpression obj prop computed) prop ;;
      match n' with
      | MemberExpression _ _ _ =>
          prop' <- visit c false (property_field computed) prop ;;
          ret (MemberExpression obj prop' computed)
      | _ => ret n'
      end
    else
      obj' <- visit c false AcceptsExpression obj ;;
      prop' <- visit c false (property_field computed) prop ;;
      ret (MemberExpression obj' prop' computed).
Proof. reflexivity. Qed.

Lemma visit_AssignmentExpression (b : bool) (f : field) (op : string)
    (l r : node) :
  visit c b f (AssignmentExpression op l r) =
    (l' <- visit c true RejectsLiteral l ;;
     r' <- visit c true AcceptsExpression r ;;
     ret (AssignmentExpression op l' r')).
Proof. reflexivity. Qed.

Lemma rewritable_in_assignment (nodeEnv : jsval) (property : node) :
  rewritable c nodeEnv true property = false.
Proof. reflexivity. Qed.

(** [env_read] gives back the parent or a literal. *)
Lemma env_read_result (b : bool) (f : field) (parent property : node)
    st n1 st1 :
  env_read c b f parent property st = (Ok n1, st1) ->
  env_get st1 "NODE_ENV" = env_get st "NODE_ENV"
  ∧ if rewritable c (env_get st "NODE_ENV") b property
    then is_literal n1 = true
    else n1 = parent ∧ st1 = st.
Proof.
  intros Hrun.
  destruct (rewritable c (env_get st "NODE_ENV") b property) eqn:Hrw.
  - destruct b; [rewrite rewritable_in_assignment in Hrw; discriminate|].
    apply (env_read_replace _ _ _ _ _ _ Hrw) in Hrun as [He [Hl _]]. auto.
  - rewrite (env_read_skip _ _ _ _ _ Hrw) in Hrun.
    injection Hrun as <- <-. auto.
Qed.

(** A read whose [env_read] is a resolver followed by [replaceWith] of a
    literal: the visit is that computation. *)
Lemma visit_read {A} (m : M A) (lit : A -> node) (b : bool) (f : field)
    (obj prop : node) (computed : bool) (st : Process) :
  is_process_env obj = true ->
  (∀ x, is_literal (lit x) = true) ->
  env_read c b f (MemberExpression obj prop computed) prop st
    = (x <- m ;; replaceWith f (lit x)) st ->
  visit c b f (MemberExpression obj prop computed) st
    = (x <- m ;; replaceWith f (lit x)) st.
Proof.
  intros Hobj Hlit Hread. rewrite visit_MemberExpression, Hobj.
  unfold bind at 1. rewrite Hread. unfold bind.
  destruct (m st) as [[x|e] st1]; [|reflexivity].
  destruct f; simpl; [|reflexivity].
  specialize (Hlit x). destruct (lit x); try discriminate; reflexivity.
Qed.

(** The visitor never turns a node into an identifier. *)
Lemma visit_identifier (b : bool) (f : field) (n : node) st n' st'
    (name : string) :
  visit c b f n st = (Ok n', st') -> n' = Identifier name -> n = Identifier name.
Proof.
  destruct n; try (intros [= <- <-]; auto; fail).
  - rewrite visit_MemberExpression. destruct (is_process_env n1).
    + intros H. apply bind_ok in H as (n1' & st1 & Hread & H).
      apply env_read_result in Hread as [_ Hread].
      destruct (rewritable _ _ _ _).
      * destruct n1'; try discriminate; injection H as <- <-; discriminate.
      * destruct Hread as [-> ->].
        apply bind_ok in H as (p' & st2 & _ & [= <- <-]). discriminate.
    + intros H. apply bind_ok in H as (o' & st1 & _ & H).
      apply bind_ok in H as (p' & st2 & _ & [= <- <-]). discriminate.
  - rewrite visit_AssignmentExpression. intros H.
    apply bind_ok in H as (l' & st1 & _ & H).
    apply bind_ok in H as (r' & st2 & _ & [= <- <-]). discriminate.
  - rewrite visit_OtherNode. intros H.
    apply bind_ok in H as (l' & st1 & _ & [= <- <-]). discriminate.
Qed.

Lemma isIdentifier_inv (n : node) (name : string) :
  isIdentifier n name = true -> n = Identifier name.
Proof.
  destruct n; simpl; try discriminate.
  intros H. apply String.eqb_eq in H. congruence.
Qed.

Lemma is_process_env_member (n : node) :
  is_process_env n = true ->
  ∃ computed, n = MemberExpression (Identifier "process") (Identifier "env") computed.
Proof.
  destruct n; simpl; try discriminate.
  intros H. apply andb_true_iff in H as [H1 H2].
  apply isIdentifier_inv in H1, H2. subst. eauto.
Qed.

(** The visitor never produces a new [process.env] node. *)
Lemma visit_process_env (b : bool) (f : field) (n : node) st n' st' :
  visit c b f n st = (Ok n', st') ->
  is_process_env n' = true -> is_process_env n = true.
Proof.
  intros Hrun Hpe. apply is_process_env_member in Hpe as [computed ->].
  destruct n; try (injection Hrun as Hn _; discriminate Hn).
  - rewrite visit_MemberExpression in Hrun.
    destruct (is_process_env n1) eqn:Hobj.
    + apply is_process_env_member in Hobj as [c1 ->].
      apply bind_ok in Hrun as (n1' & st1 & Hread & H).
      apply env_read_result in Hread as [_ Hread].
      destruct (rewritable _ _ _ _).
      * destruct n1'; try discriminate; injection H as <- <-; discriminate.
      * destruct Hread as [-> ->].
        apply bind_ok in H as (p' & st2 & _ & [= <- <-]).
    + apply bind_ok in Hrun as (o' & st1 & Ho & H).
      apply bind_ok in H as (p' & st2 & Hp & [= -> -> ->]).
      apply (visit_identifier _ _ _ _ _ _ "process") in Ho; [|reflexivity].
      apply (visit_identifier _ _ _ _ _ _ "env") in Hp; [|reflexivity].
      subst. reflexivity.
  - rewrite visit_AssignmentExpression in Hrun.
    apply bind_ok in Hrun as (l' & st1 & _ & H).
    apply bind_ok in H as (r' & st2 & _ & [= <- <-]).
  - rewrite visit_OtherNode in Hrun.
    apply bind_ok in Hrun as (l' & st1 & _ & [= <- <-]).
Qed.

Lemma rewritable_visited (nodeEnv : jsval) (b b' : bool) (f : field)
    (n : node) st n' st' :
  visit c b' f n st = (Ok n', st') ->
  rewritable c nodeEnv b n = false -> rewritable c nodeEnv b n' = false.
Proof.
  intros Hrun Hrw. destruct n' as [name| | | | |]; try (destruct b; reflexivity).
  apply (visit_identifier _ _ _ _ _ _ name) in Hrun; [|reflexivity].
  subst. exact Hrw.
Qed.

(** After a visit that returns, nothing in the tree is left for the
    visitor to replace, and [NODE_ENV] is what it was. *)
Lemma visit_settles (n : node) :
  ∀ b f st n' st',
    visit c b f n st = (Ok n', st') ->
    settled c (env_get st "NODE_ENV") b n' = true
    ∧ env_get st' "NODE_ENV" = env_get st "NODE_ENV".
Proof.
  induction n as [name|value|value|obj prop computed IHobj IHprop
                 |op l r IHl IHr|ty children IH] using node_ind';
    intros b f st n' st' Hrun.
  - injection Hrun as <- <-. auto.
  - injection Hrun as <- <-. auto.
  - injection Hrun as <- <-. auto.
  - rewrite visit_MemberExpression in Hrun.
    destruct (is_process_env obj) eqn:Hobj.
    + apply bind_ok in Hrun as (n1 & st1 & Hread & Hrun).
      apply env_read_result in Hread as [Henv Hread].
      destruct (rewritable c (env_get st "NODE_ENV") b prop) eqn:Hrw.
      * destruct n1; try discriminate; injection Hrun as <- <-; auto.
      * destruct Hread as [-> ->].
        apply bind_ok in Hrun as (prop' & st2 & Hprop & [= <- <-]).
        pose proof (rewritable_visited _ b _ _ _ _ _ _ Hprop Hrw) as Hrw'.
        apply IHprop in Hprop as [Hs He].
        simpl. rewrite Hobj, Hrw', Hs. auto.
    + apply bind_ok in Hrun as (obj' & st1 & Ho & Hrun).
      apply bind_ok in Hrun as (prop' & st2 & Hp & [= <- <-]).
      assert (Hobj' : is_process_env obj' = false).
      { destruct (is_process_env obj') eqn:E; [|reflexivity].
        apply (visit_process_env _ _ _ _ _ _ Ho) in E. congruence. }
      apply IHobj in Ho as [Hso Heo]. apply IHprop in Hp as [Hsp Hep].
      simpl. rewrite Hobj', Hso. rewrite Heo in Hsp. rewrite Hsp.
      split; [reflexivity | congruence].
  - rewrite visit_AssignmentExpression in Hrun.
    apply bind_ok in Hrun as (l' & st1 & Hl & Hrun).
    apply bind_ok in Hrun as (r' & st2 & Hr & [= <- <-]).
    apply IHl in Hl as [Hsl Hel]. apply IHr in Hr as [Hsr Her].
    simpl. rewrite Hsl. rewrite Hel in Hsr. rewrite Hsr.
    split; [reflexivity | congruence].
  - rewrite visit_OtherNode in Hrun.
    apply bind_ok in Hrun as (children' & st1 & Hall & [= <- <-]).
    simpl. revert st children' st1 Hall.
    induction IH as [|[fx x] l Hx _ IHl]; intros st children' st1 Hall.
    + injection Hall as <- <-. auto.
    + simpl in Hall.
      apply bind_ok in Hall as (x' & st2 & Hvx & Hall).
      apply bind_ok in Hall as (l' & st3 & Hvl & [= <- <-]).
      apply Hx in Hvx as [Hsx Hex]. apply IHl in Hvl as [Hsl Hel].
      simpl. rewrite Hsx. rewrite Hex in Hsl. rewrite Hsl.
      split; [reflexivity | congruence].
Qed.

(** A tree with nothing to replace goes through the visitor unchanged,
    and so does the process state. *)
Lemma visit_settled (n : node) :
  ∀ b f st,
    settled c (env_get st "NODE_ENV") b n = true ->
    visit c b f n st = (Ok n, st).
Proof.
  induction n as [name|value|value|obj prop computed IHobj IHprop
                 |op l r IHl IHr|ty children IH] using node_ind';
    intros b f st Hs; try reflexivity.
  - rewrite visit_MemberExpression. simpl in Hs.
    destruct (is_process_env obj).
    + apply andb_true_iff in Hs as [Hrw Hp].
      apply negb_true_iff in Hrw.
      rewrite (bind_run _ _ _ _ _ (env_read_skip _ _ _ _ _ Hrw)).
      rewrite (bind_run _ _ _ _ _ (IHprop _ _ _ Hp)). reflexivity.
    + apply andb_true_iff in Hs as [Ho Hp].
      rewrite (bind_run _ _ _ _ _ (IHobj _ _ _ Ho)).
      rewrite (bind_run _ _ _ _ _ (IHprop _ _ _ Hp)). reflexivity.
  - rewrite visit_AssignmentExpression. simpl in Hs.
    apply andb_true_iff in Hs as [Hl Hr].
    rewrite (bind_run _ _ _ _ _ (IHl _ _ _ Hl)).
    rewrite (bind_run _ _ _ _ _ (IHr _ _ _ Hr)). reflexivity.
  - rewrite visit_OtherNode. simpl in Hs.
    assert (Hall : visit_children c children st = (Ok children, st)).
    { induction IH as [|[fx x] l Hx _ IHl]; [reflexivity|].
      simpl in Hs. apply andb_true_iff in Hs as [Hsx Hsl]. simpl.
      rewrite (bind_run _ _ _ _ _ (Hx _ _ _ Hsx)).
      rewrite (bind_run _ _ _ _ _ (IHl Hsl)). reflexivity. }
    rewrite (bind_run _ _ _ _ _ Hall). reflexivity.
Qed.

Lemma visit_all_settles (l : list node) :
  ∀ st l' st',
    visit_all c l st = (Ok l', st') ->
    forallb (settled c (env_get st "NODE_ENV") false) l' = true
    ∧ env_get st' "NODE_ENV" = env_get st "NODE_ENV".
Proof.
  induction l as [|x l IHl]; intros st l' st' Hrun.
  - injection Hrun as <- <-. auto.
  - simpl in Hrun.
    apply bind_ok in Hrun as (x' & st1 & Hvx & Hrun).
    apply bind_ok in Hrun as (l1 & st2 & Hvl & [= <- <-]).
    apply visit_settles in Hvx as [Hsx Hex]. apply IHl in Hvl as [Hsl Hel].
    simpl. rewrite Hsx. rewrite Hex in Hsl. rewrite Hsl.
    split; [reflexivity | congruence].
Qed.

Lemma visit_all_settled (l : list node) (st : Process) :
  forallb (settled c (env_get st "NODE_ENV") false) l = true ->
  visit_all c l st = (Ok l, st).
Proof.
  induction l as [|x l IHl]; [reflexivity|]. simpl.
  intros Hs. apply andb_true_iff in Hs as [Hsx Hsl].
  rewrite (bind_run _ _ _ _ _ (visit_settled _ _ _ _ Hsx)).
  rewrite (bind_run _ _ _ _ _ (IHl Hsl)). reflexivity.
Qed.

(** C6. [expoRouterBabelPlugin] is idempotent: when a run returns, its
    output holds no member expression the visitor would replace, and a
    second run on that output returns it unchanged and leaves the process
    state as it is. *)
Theorem expoRouterBabelPlugin_idempotent (body body' : list node)
    (st st' : Process) :
  expoRouterBabelPlugin c body st = (Ok body', st') ->
  forallb (settled c (env_get st' "NODE_ENV") false) body' = true
  ∧ expoRouterBabelPlugin c body' st' = (Ok body', st').
Proof.
  unfold expoRouterBabelPlugin. intros Hrun.
  apply visit_all_settles in Hrun as [Hs He]. rewrite <- He in Hs.
  split; [exact Hs | apply visit_all_settled; exact Hs].
Qed.

Lemma env_get_not_test (st : Process) :
  env_get st "NODE_ENV" ≠ VStr "test" ->
  strict_eq (env_get st "NODE_ENV") (VStr "test") = false.
Proof.
  intros Hne. destruct (env_get st "NODE_ENV") as [| | | |s|]; try reflexivity.
  apply String.eqb_neq. congruence.
Qed.

Lemma bind_replaceWith_accepts {A} (m : M A) (lit : A -> node) (st : Process) :
  (x <- m ;; replaceWith AcceptsExpression (lit x)) st
    = (x <- m ;; ret (lit x)) st.
Proof. reflexivity. Qed.

Lemma visit_all_app (l1 l2 : list node) (st : Process) :
  visit_all c (l1 ++ l2)%list st =
    (l1' <- visit_all c l1 ;;
     l2' <- visit_all c l2 ;;
     ret (l1' ++ l2')%list) st.
Proof.
  revert st. induction l1 as [|x l1 IH]; intros st; simpl.
  - unfold bind, ret.
    destruct (visit_all c l2 st) as [[l2'|e] st1]; reflexivity.
  - unfold bind in *.
    destruct (visit c false RejectsLiteral x st) as [[x'|e] st1];
      [|reflexivity].
    rewrite IH.
    destruct (visit_all c l1 st1) as [[l1'|e] st2]; [|reflexivity].
    unfold ret. simpl.
    destruct (visit_all c l2 st2) as [[l2'|e] st3]; reflexivity.
Qed.

Lemma visit_all_statement (ty : string) (f : field) (n : node) (st : Process) :
  visit_all c [OtherNode ty [(f, n)]] st =
    (n' <- visit c false f n ;; ret [OtherNode ty [(f, n')]]) st.
Proof.
  simpl. unfold bind.
  destruct (visit c false f n st) as [[n'|e] st1]; reflexivity.
Qed.

(** C5 (amended). A [process.env.<NAME>] read that is the left operand of
    an assignment is left as written. A read of a recognized name whose
    parent is not an assignment expression, standing where an expression is
    accepted, is replaced as a whole by the literal for its name: the
    project root string, the static-rendering boolean, the string of the
    app-root resolvers (outside the test environment) or of the import-mode
    resolver; when the resolver throws, so does the visit. *)
Theorem env_read_assignment_target (obj : node) (computed : bool)
    (st : Process) :
  is_process_env obj = true ->
  let read name := MemberExpression obj (Identifier name) computed in
  let projectRoot := projectRoot_of c in
  (∀ name b f op rhs,
     visit c b f (AssignmentExpression op (read name) rhs) st =
       (rhs' <- visit c true AcceptsExpression rhs ;;
        ret (AssignmentExpression op (read name) rhs')) st)
  ∧ visit c false AcceptsExpression (read "EXPO_PROJECT_ROOT") st
    = (Ok (StringLiteral projectRoot), st)
  ∧ visit c false AcceptsExpression (read "EXPO_PUBLIC_USE_STATIC") st
    = (Ok (BooleanLiteral
             (strict_eq (from_option VStr VUndefined (platform c)) (VStr "web")
              && (strict_eq (env_get st "EXPO_PUBLIC_USE_STATIC") (VStr "true")
                  || strict_eq (env_get st "EXPO_PUBLIC_USE_STATIC")
                       (VStr "1")))),
       st)
  ∧ (env_get st "NODE_ENV" ≠ VStr "test" ->
     visit c false AcceptsExpression (read "EXPO_ROUTER_ABS_APP_ROOT") st
       = (r <- getExpoRouterAbsoluteAppRoot projectRoot ;;
          ret (StringLiteral r)) st
     ∧ visit c false AcceptsExpression (read "EXPO_ROUTER_APP_ROOT") st
       = (r <- getExpoRouterAppRoot projectRoot ;; ret (StringLiteral r)) st)
  ∧ (∀ p, platform c = Some p -> p ≠ "" ->
     visit c false AcceptsExpression (read (import_mode_var p)) st
       = (r <- getExpoRouterImportMode projectRoot p ;;
          ret (StringLiteral r)) st).
Proof.
  intros Hobj read projectRoot. split; [|split; [|split; [|split]]].
  - intros name b f op rhs. rewrite visit_AssignmentExpression.
    assert (Hleft : visit c true RejectsLiteral (read name) st
                    = (Ok (read name), st)).
    { apply visit_settled. simpl. rewrite Hobj. reflexivity. }
    rewrite (bind_run _ _ _ _ _ Hleft). reflexivity.
  - unfold read. rewrite visit_MemberExpression, Hobj.
    unfold bind. rewrite env_read_project_root. reflexivity.
  - unfold read. rewrite visit_MemberExpression, Hobj.
    unfold bind. rewrite env_read_use_static. reflexivity.
  - intros Hne. apply env_get_not_test in Hne. split.
    + rewrite <- bind_replaceWith_accepts.
      apply (visit_read _ StringLiteral); [exact Hobj | reflexivity|].
      apply env_read_abs_app_root. exact Hne.
    + rewrite <- bind_replaceWith_accepts.
      apply (visit_read _ StringLiteral); [exact Hobj | reflexivity|].
      apply env_read_app_root. exact Hne.
  - intros p Hp Hne. rewrite <- bind_replaceWith_accepts.
    apply (visit_read _ StringLiteral); [exact Hobj | reflexivity|].
    apply env_read_import_mode; assumption.
Qed.

(** C8 (amended). With [NODE_ENV] equal to ["test"], a read of
    [EXPO_ROUTER_ABS_APP_ROOT] or of [EXPO_ROUTER_APP_ROOT] is left as
    written wherever it stands, and nothing is resolved or cached. With any
    other [NODE_ENV] (or none; [BABEL_ENV] is not looked at), such a read
    whose parent is not an assignment, standing where an expression is
    accepted, is replaced by the string literal of
    [getExpoRouterAbsoluteAppRoot], respectively [getExpoRouterAppRoot],
    for the project root. The same holds of [expoRouterBabelPlugin] run on a
    file that ends with the read as a statement. *)
Theorem app_root_test_exemption (obj : node) (computed : bool) (st : Process) :
  is_process_env obj = true ->
  let abs := MemberExpression obj (Identifier "EXPO_ROUTER_ABS_APP_ROOT") computed in
  let rel := MemberExpression obj (Identifier "EXPO_ROUTER_APP_ROOT") computed in
  let statement read := OtherNode "ExpressionStatement" [(AcceptsExpression, read)] in
  let projectRoot := projectRoot_of c in
  (env_get st "NODE_ENV" = VStr "test" ->
   (∀ b f, visit c b f abs st = (Ok abs, st)
           ∧ visit c b f rel st = (Ok rel, st))
   ∧ (∀ before before' st0,
        expoRouterBabelPlugin c before st0 = (Ok before', st) ->
        expoRouterBabelPlugin c (before ++ [statement abs; statement rel])%list st0
          = (Ok (before' ++ [statement abs; statement rel])%list, st)))
  ∧ (env_get st "NODE_ENV" ≠ VStr "test" ->
     visit c false AcceptsExpression abs st
       = (r <- getExpoRouterAbsoluteAppRoot projectRoot ;;
          ret (StringLiteral r)) st
     ∧ visit c false AcceptsExpression rel st
       = (r <- getExpoRouterAppRoot projectRoot ;; ret (StringLiteral r)) st
     ∧ (∀ before before' st0,
          expoRouterBabelPlugin c before st0 = (Ok before', st) ->
          expoRouterBabelPlugin c (before ++ [statement abs])%list st0
            = (r <- getExpoRouterAbsoluteAppRoot projectRoot ;;
               ret (before' ++ [statement (StringLiteral r)])%list) st
          ∧ expoRouterBabelPlugin c (before ++ [statement rel])%list st0
            = (r <- getExpoRouterAppRoot projectRoot ;;
               ret (before' ++ [statement (StringLiteral r)])%list) st)).
Proof.
  intros Hobj abs rel statement projectRoot. split.
  - intros Htest.
    assert (Hsettled : ∀ b, settled c (env_get st "NODE_ENV") b abs = true
                            ∧ settled c (env_get st "NODE_ENV") b rel = true).
    { intros b. split; simpl; rewrite Hobj, andb_true_r;
        apply negb_true_iff; unfold rewritable, recognized; rewrite Htest;
        simpl; destruct (platform c) as [p|]; simpl;
        rewrite ?andb_false_r; reflexivity. }
    split.
    + intros b f. split; apply visit_settled; apply Hsettled.
    + intros before before' st0 Hbefore.
      unfold expoRouterBabelPlugin in *. rewrite visit_all_app.
      rewrite (bind_run _ _ _ _ _ Hbefore).
      assert (Hrest : visit_all c [statement abs; statement rel] st
                      = (Ok [statement abs; statement rel], st)).
      { apply visit_all_settled. destruct (Hsettled false) as [Ha Hr].
        change (forallb (settled c (env_get st "NODE_ENV") false)
                  [statement abs; statement rel])
          with ((settled c (env_get st "NODE_ENV") false abs && true)
                && ((settled c (env_get st "NODE_ENV") false rel && true)
                    && true)).
        rewrite Ha, Hr. reflexivity. }
      rewrite (bind_run _ _ _ _ _ Hrest). reflexivity.
  - intros Hne. apply env_get_not_test in Hne.
    assert (Habs : visit c false AcceptsExpression abs st
                   = (r <- getExpoRouterAbsoluteAppRoot projectRoot ;;
                      ret (StringLiteral r)) st).
    { rewrite <- bind_replaceWith_accepts.
      apply (visit_read _ StringLiteral); [exact Hobj | reflexivity|].
      apply env_read_abs_app_root. exact Hne. }
    assert (Hrel : visit c false AcceptsExpression rel st
                   = (r <- getExpoRouterAppRoot projectRoot ;;
                      ret (StringLiteral r)) st).
    { rewrite <- bind_replaceWith_accepts.
      apply (visit_read _ StringLiteral); [exact Hobj | reflexivity|].
      apply env_read_app_root. exact Hne. }
    split; [exact Habs|]. split; [exact Hrel|].
    intros before before' st0 Hbefore.
    unfold expoRouterBabelPlugin in *. rewrite !visit_all_app.
    rewrite !(bind_run _ _ _ _ _ Hbefore).
    unfold statement.
    split; unfold bind at 1; rewrite visit_all_statement; unfold bind at 1;
      [rewrite Habs | rewrite Hrel]; unfold bind.
    + destruct (getExpoRouterAbsoluteAppRoot projectRoot st) as [[r|e] st1];
        reflexivity.
    + destruct (getExpoRouterAppRoot projectRoot st) as [[r|e] st1];
        reflexivity.
Qed.

End EnvInliningPass.

Section ClientBoundaryPass.
Context {host : Host}.

Lemma has_use_client (l : list string) :
  existsb (fun d => d =? "use client") l = true ↔ "use client" ∈ l.
Proof.
  rewrite existsb_exists. split.
  - intros (d & Hin & Heq). apply String.eqb_eq in Heq. subst.
    apply list_elem_of_In. exact Hin.
  - intros Hin. exists "use client". split; [|reflexivity].
    apply list_elem_of_In. exact Hin.
Qed.

(** [push_stubs] builds one stub per name when every name is defined, and
    throws at the first one that is not. *)
Lemma push_stubs_run (outputKey : string) (names : list (option string)) :
  ∀ body,
    push_stubs outputKey names body =
      match defined_names names with
      | Some ns => Ok (body ++ map (stub outputKey) ns)%list
      | None => Throw TypeError
      end.
Proof.
  induction names as [|[exp|] names IH]; intros body; simpl.
  - rewrite app_nil_r. reflexivity.
  - rewrite IH. destruct (defined_names names); simpl; [|reflexivity].
    rewrite <- app_assoc. reflexivity.
  - reflexivity.
Qed.

Lemma defined_names_Some (names : list (option string)) (ns : list string) :
  defined_names names = Some ns -> names = map Some ns.
Proof.
  revert ns. induction names as [|[exp|] names IH]; intros ns; simpl.
  - intros [= <-]. reflexivity.
  - destruct (defined_names names) as [ns'|]; [|discriminate].
    intros [= <-]. simpl. rewrite (IH ns' eq_refl). reflexivity.
  - discriminate.
Qed.

Lemma defined_names_None (names : list (option string)) :
  defined_names names = None -> None ∈ names.
Proof.
  induction names as [|[exp|] names IH]; simpl.
  - discriminate.
  - destruct (defined_names names); [discriminate|].
    intros _. apply list_elem_of_further. apply IH. reflexivity.
  - intros _. apply list_elem_of_here.
Qed.

Lemma stub_descriptor (outputKey exp : string) :
  descriptor_id (stub outputKey exp) = Some (outputKey +:+ "#" +:+ exp)
  ∧ descriptor_name (stub outputKey exp) = Some exp
  ∧ exports_of (stub outputKey exp) = [Some exp].
Proof.
  unfold stub. destruct (exp =? "default") eqn:Hdef.
  - apply String.eqb_eq in Hdef. subst. repeat split.
  - repeat split.
Qed.

Lemma stubs_descriptors (outputKey : string) (names : list string) :
  map descriptor_id (map (stub outputKey) names)
    = map (fun name => Some (outputKey +:+ "#" +:+ name)) names
  ∧ map descriptor_name (map (stub outputKey) names) = map Some names
  ∧ collect_exports (map (stub outputKey) names) = map Some names.
Proof.
  induction names as [|exp names (IHid & IHname & IHexp)]; [repeat split|].
  destruct (stub_descriptor outputKey exp) as (Hid & Hname & Hexp).
  cbn [map collect_exports]. rewrite Hid, Hname, Hexp, IHid, IHname, IHexp.
  repeat split.
Qed.

(** The two runs on a module with the directive. The client run records
    the collected names. When all of them are defined, the server run
    replaces the body by one stub per name, in the same order, with [$$id]
    [entryPoint # name]; when one is [undefined], the server run throws. *)
Lemma stubs_match_manifest (serverRoot filename : string)
    (program : Program) (mS mC : Metadata) :
  "use client" ∈ directives program ->
  ∃ entry,
    expoRouterServerComponentClientReferencesPlugin
      false serverRoot filename program mC
      = Ok (program, {| clientReferences := Some entry |})
    ∧ entryPoint entry = "/" +:+ nodePath_relative serverRoot filename
    ∧ exports entry = collect_exports (body program)
    ∧ match defined_names (exports entry) with
      | Some names =>
          ∃ stubs,
            expoRouterServerComponentClientReferencesPlugin
              true serverRoot filename program mS
              = Ok ({| directives := []; body := stubs |}, mS)
            ∧ map descriptor_id stubs = manifest_ids entry
            ∧ map descriptor_name stubs = exports entry
            ∧ collect_exports stubs = exports entry
      | None =>
          expoRouterServerComponentClientReferencesPlugin
            true serverRoot filename program mS = Throw TypeError
      end.
Proof.
  intros Hdir. apply has_use_client in Hdir.
  unfold expoRouterServerComponentClientReferencesPlugin.
  rewrite Hdir. simpl. eexists. split; [reflexivity|]. simpl.
  split; [reflexivity|]. split; [reflexivity|].
  rewrite push_stubs_run.
  destruct (defined_names (collect_exports (body program))) as [names|] eqn:Hn;
    [|reflexivity].
  apply defined_names_Some in Hn.
  eexists. split; [reflexivity|]. simpl.
  destruct (stubs_descriptors
              ("/" +:+ nodePath_relative serverRoot filename) names)
    as (Hid & Hname & Hexp).
  unfold manifest_ids. simpl. rewrite Hn, Hid, Hname, Hexp, map_map.
  repeat split.
Qed.

(** C7. A module whose directives do not include ["use client"] is left
    as it is, with its metadata, for the server and for the client
    target. *)
Theorem no_directive_no_change (isServer : bool) (serverRoot filename : string)
    (program : Program) (metadata : Metadata) :
  "use client" ∉ directives program ->
  expoRouterServerComponentClientReferencesPlugin
    isServer serverRoot filename program metadata = Ok (program, metadata).
Proof.
  intros Hdir. unfold expoRouterServerComponentClientReferencesPlugin.
  destruct (existsb _ (directives program)) eqn:Hex; [|reflexivity].
  apply has_use_client in Hex. contradiction.
Qed.

Lemma collect_exports_app (l1 l2 : list Statement) :
  collect_exports (l1 ++ l2)%list
    = (collect_exports l1 ++ collect_exports l2)%list.
Proof.
  induction l1 as [|s l1 IH]; simpl; [reflexivity|].
  rewrite IH, app_assoc. reflexivity.
Qed.

(** C9 (amended). An export node the enumerator has no case for (an
    [export * from], a default export without a [declaration], a named
    export with neither [declaration] nor [specifiers]) adds no name: the
    plugin's result is the same as for the module without that node's
    names. A default export of an expression, a bare identifier included,
    has a [declaration] and adds the name ["default"]. *)
Theorem unrecognized_export_skipped (s : Statement)
    (before after : list Statement) :
  unrecognized s = true ->
  let with_s ds := {| directives := ds; body := (before ++ s :: after)%list |} in
  let without ds := {| directives := ds; body := (before ++ after)%list |} in
  exports_of s = []
  ∧ (∀ serverRoot filename ds metadata,
       "use client" ∈ ds ->
       metadata_after
         (expoRouterServerComponentClientReferencesPlugin false serverRoot
            filename (with_s ds) metadata)
       = metadata_after
           (expoRouterServerComponentClientReferencesPlugin false serverRoot
              filename (without ds) metadata)
       ∧ expoRouterServerComponentClientReferencesPlugin true serverRoot
           filename (with_s ds) metadata
         = expoRouterServerComponentClientReferencesPlugin true serverRoot
             filename (without ds) metadata)
  ∧ (∀ e, exports_of (ExportDefaultDeclaration (Some (DefaultExpression e)))
          = [Some "default"]).
Proof.
  intros Hun with_s without.
  assert (Hnone : exports_of s = []).
  { destruct s as [[d|] [specs|]|[d|]| |]; try discriminate; reflexivity. }
  assert (Hcollect : collect_exports (before ++ s :: after)%list
                     = collect_exports (before ++ after)%list).
  { rewrite !collect_exports_app. cbn [collect_exports].
    rewrite Hnone. reflexivity. }
  split; [exact Hnone|]. split; [|reflexivity].
  intros serverRoot filename ds metadata Hdir.
  apply has_use_client in Hdir.
  unfold expoRouterServerComponentClientReferencesPlugin, with_s, without.
  simpl. rewrite Hdir. simpl. rewrite Hcollect. split; reflexivity.
Qed.

End ClientBoundaryPass.

(** * Further properties of the resolvers *)

Section RouterModeResolver.
Context {host : Host}.

Lemma env_cached_env_set (k v : string) (st : Process) :
  env_cached (env_set k v st) k = if v =? "" then None else Some v.
Proof. unfold env_cached, env_set. simpl. rewrite lookup_insert_eq. reflexivity. Qed.

Lemma env_cached_nonempty (st : Process) (k m : string) :
  env_cached st k = Some m -> m ≠ "".
Proof.
  unfold env_cached. destruct (process_env st !! k) as [s|]; [|discriminate].
  destruct (s =? "") eqn:E; [discriminate|].
  intros [= <-]. apply String.eqb_neq. exact E.
Qed.

Lemma strict_eq_str (v : jsval) (s : string) :
  strict_eq v (VStr s) = true -> v = VStr s.
Proof.
  destruct v; simpl; try discriminate.
  intros H. apply String.eqb_eq in H. congruence.
Qed.

Lemma with_config_twice (projectRoot : string) (st : Process) :
  resolved_config projectRoot (with_config projectRoot st)
    = resolved_config projectRoot st.
Proof.
  rewrite resolved_config_after. unfold resolved_config.
  destruct (truthy (env_get st "_EXPO_INTERNAL_TESTING")); [|reflexivity].
  destruct (config st); reflexivity.
Qed.

(** Once a call has returned a mode for a platform, every later call for
    that platform returns the same mode from [process.env], for any
    project root, and changes nothing. *)
Theorem import_mode_cached (projectRoot projectRoot' platform mode : string)
    (st st' : Process) :
  getExpoRouterImportMode projectRoot platform st = (Ok mode, st') ->
  getExpoRouterImportMode projectRoot' platform st' = (Ok mode, st').
Proof.
  rewrite !getExpoRouterImportMode_run.
  destruct (env_cached st (import_mode_var platform)) as [m|] eqn:Hc.
  - intros [= <- <-]. rewrite Hc. reflexivity.
  - cbv zeta. destruct (strict_eq _ _ && _); [discriminate|].
    intros [= <- <-]. rewrite env_cached_env_set.
    destruct (candidate_mode_cases (build_env st)
                (asyncRoutesSetting (resolved_config projectRoot st) platform))
      as [-> | ->]; destruct (_ && _); reflexivity.
Qed.

(** Without a cached override the call returns ["sync"] or ["lazy"], or it
    throws the production error, and it throws in a production build
    only. *)
Theorem import_mode_range (projectRoot platform : string) (st : Process) :
  env_cached st (import_mode_var platform) = None ->
  match fst (getExpoRouterImportMode projectRoot platform st) with
  | Ok mode => mode = "sync" ∨ mode = "lazy"
  | Throw msg => msg = production_error ∧ build_env st = VStr "production"
  end.
Proof.
  intros Hc. rewrite getExpoRouterImportMode_run, Hc. cbv zeta.
  destruct (strict_eq (build_env st) (VStr "production")) eqn:Henv; simpl.
  - apply strict_eq_str in Henv.
    destruct (candidate_mode_cases (build_env st)
                (asyncRoutesSetting (resolved_config projectRoot st) platform))
      as [-> | ->]; simpl; [auto|].
    destruct (_ && _); auto.
  - destruct (candidate_mode_cases (build_env st)
                (asyncRoutesSetting (resolved_config projectRoot st) platform))
      as [-> | ->]; destruct (_ && _); simpl; auto.
Qed.

(** A call that throws caches no mode: [process.env] is as before, and
    the same call throws again. *)
Theorem import_mode_failure_repeats (projectRoot platform : string)
    (msg : exn) (st st' : Process) :
  getExpoRouterImportMode projectRoot platform st = (Throw msg, st') ->
  process_env st' = process_env st
  ∧ getExpoRouterImportMode projectRoot platform st' = (Throw msg, st').
Proof.
  rewrite !getExpoRouterImportMode_run.
  destruct (env_cached st (import_mode_var platform)) as [m|] eqn:Hc;
    [discriminate|].
  cbv zeta.
  destruct (strict_eq (build_env st) (VStr "production")
            && (candidate_mode (build_env st)
                  (asyncRoutesSetting (resolved_config projectRoot st) platform)
                =? "lazy")) eqn:Hthrow; [|discriminate].
  intros [= <- <-]. split; [reflexivity|].
  change (env_cached (with_config projectRoot st) (import_mode_var platform))
    with (env_cached st (import_mode_var platform)).
  rewrite Hc.
  change (build_env (with_config projectRoot st)) with (build_env st).
  rewrite with_config_twice, Hthrow.
  f_equal. unfold with_config at 1. rewrite with_config_twice. reflexivity.
Qed.

(** The boolean [asyncRoutes: true] is neither a string nor an object, so
    it sets no async-routes setting: with a build environment set and no
    override, the mode is ["sync"]. *)
Theorem async_routes_true_gives_sync (projectRoot platform env : string)
    (st : Process) :
  env_cached st (import_mode_var platform) = None ->
  build_env st = VStr env ->
  asyncRoutes (exp (resolved_config projectRoot st)) = VBool true ->
  fst (getExpoRouterImportMode projectRoot platform st) = Ok "sync".
Proof.
  intros Hc Henv Hroutes. rewrite getExpoRouterImportMode_run, Hc. cbv zeta.
  unfold asyncRoutesSetting. rewrite Hroutes, Henv. simpl.
  rewrite andb_false_r. simpl. destruct (_ && _); reflexivity.
Qed.

(** With neither [NODE_ENV] nor [BABEL_ENV] set and no async-routes
    setting, [undefined] is found in [[env, true]]: the mode is ["lazy"],
    except for the web platform with static output. *)
Theorem import_mode_without_environment (projectRoot platform : string)
    (st : Process) :
  env_cached st (import_mode_var platform) = None ->
  build_env st = VUndefined ->
  asyncRoutesSetting (resolved_config projectRoot st) platform = VUndefined ->
  fst (getExpoRouterImportMode projectRoot platform st) =
    Ok (if (platform =? "web")
           && strict_eq (web_output (exp (resolved_config projectRoot st)))
                (VStr "static")
        then "sync" else "lazy").
Proof.
  intros Hc Henv Hset. rewrite getExpoRouterImportMode_run, Hc. cbv zeta.
  rewrite Hset, Henv. reflexivity.
Qed.

End RouterModeResolver.

Section AppRootCaches.
Context {host : Host}.

Lemma getRouterDirectory_relative (projectRoot : string) :
  startsWith "/" (getRouterDirectory projectRoot) = false.
Proof. unfold getRouterDirectory. destruct (isDirectory _); reflexivity. Qed.

(** When [getExpoRouterAbsoluteAppRoot] returns a root that is not the
    empty string, every later call returns that root from [process.env],
    for any project root, and changes nothing. *)
Theorem abs_app_root_cached (projectRoot projectRoot' appFolder : string)
    (st st' : Process) :
  getExpoRouterAbsoluteAppRoot projectRoot st = (Ok appFolder, st') ->
  appFolder ≠ "" ->
  getExpoRouterAbsoluteAppRoot projectRoot' st' = (Ok appFolder, st').
Proof.
  intros Hrun Hne.
  assert (Hc : env_cached st' "EXPO_ROUTER_ABS_APP_ROOT" = Some appFolder).
  { revert Hrun. rewrite getExpoRouterAbsoluteAppRoot_run.
    destruct (env_cached st "EXPO_ROUTER_ABS_APP_ROOT") as [m|] eqn:Hc.
    - intros [= <- <-]. exact Hc.
    - destruct (customSrc_of _ _); try discriminate.
      cbv zeta. intros [= <- <-]. rewrite env_cached_env_set.
      apply String.eqb_neq in Hne. rewrite Hne. reflexivity. }
  rewrite getExpoRouterAbsoluteAppRoot_run, Hc. reflexivity.
Qed.

(** A custom source directory that starts with [/] is the app root as it
    is: the project root and the file system play no part. It is cached
    under [EXPO_ROUTER_ABS_APP_ROOT]. *)
Theorem abs_app_root_absolute_src (projectRoot src : string) (st : Process) :
  env_cached st "EXPO_ROUTER_ABS_APP_ROOT" = None ->
  unstable_src (exp (resolved_config projectRoot st)) = VStr src ->
  startsWith "/" src = true ->
  fst (getExpoRouterAbsoluteAppRoot projectRoot st) = Ok src
  ∧ process_env (snd (getExpoRouterAbsoluteAppRoot projectRoot st))
      !! "EXPO_ROUTER_ABS_APP_ROOT" = Some src.
Proof.
  intros Hc Hsrc Habs. rewrite getExpoRouterAbsoluteAppRoot_run, Hc.
  unfold customSrc_of. rewrite Hsrc.
  assert (Hne : truthy (VStr src) = true).
  { destruct src; [discriminate | reflexivity]. }
  rewrite Hne. cbv zeta. rewrite Habs. simpl.
  split; [reflexivity | apply lookup_insert_eq].
Qed.

(** Without a custom source directory (absent, empty or otherwise falsy) the
    app root is [src/app] under the project root when that directory
    exists, and [app] under the project root otherwise, whether or not
    [app] exists. *)
Theorem abs_app_root_default (projectRoot : string) (st : Process) :
  env_cached st "EXPO_ROUTER_ABS_APP_ROOT" = None ->
  truthy (unstable_src (exp (resolved_config projectRoot st))) = false ->
  fst (getExpoRouterAbsoluteAppRoot projectRoot st) =
    Ok (if isDirectory (nodePath_join projectRoot "src/app")
        then nodePath_join projectRoot "./src/app"
        else nodePath_join projectRoot "./app").
Proof.
  intros Hc Hsrc. rewrite getExpoRouterAbsoluteAppRoot_run, Hc.
  unfold customSrc_of. rewrite Hsrc. cbv zeta.
  rewrite getRouterDirectory_relative. simpl.
  unfold getRouterDirectory. destruct (isDirectory _); reflexivity.
Qed.

(** When [expo-router/entry] cannot be resolved, [getExpoRouterAppRoot]
    returns a cached [EXPO_ROUTER_APP_ROOT_2] if there is one and throws
    otherwise; either way it loads no configuration and caches nothing. *)
Theorem app_root_needs_router_entry (projectRoot : string) (st : Process) :
  resolveFrom projectRoot "expo-router/entry" = None ->
  getExpoRouterAppRoot projectRoot st =
    match env_cached st "EXPO_ROUTER_APP_ROOT_2" with
    | Some cached => (Ok cached, st)
    | None => (Throw resolve_error, st)
    end.
Proof.
  intros Hres. unfold getExpoRouterAppRoot.
  unfold bind at 1. unfold get_state at 1.
  destruct (env_cached st "EXPO_ROUTER_APP_ROOT_2"); [reflexivity|].
  rewrite Hres. reflexivity.
Qed.

(** When the entry module resolves and nothing is cached for the relative
    root, the result is the absolute app root of
    [getExpoRouterAbsoluteAppRoot] taken relative to the directory of the
    entry module, and both roots are in [process.env] afterwards; when
    [getExpoRouterAbsoluteAppRoot] throws, so does the call, and the
    relative root is not cached. *)
Theorem app_root_relative_to_entry (projectRoot routerEntry : string)
    (st : Process) :
  env_cached st "EXPO_ROUTER_APP_ROOT_2" = None ->
  resolveFrom projectRoot "expo-router/entry" = Some routerEntry ->
  match getExpoRouterAbsoluteAppRoot projectRoot st with
  | (Ok appFolder, st1) =>
      let appRoot :=
        nodePath_relative (nodePath_dirname routerEntry) appFolder in
      ∃ st2,
        getExpoRouterAppRoot projectRoot st = (Ok appRoot, st2)
        ∧ process_env st2 !! "EXPO_ROUTER_APP_ROOT_2" = Some appRoot
        ∧ process_env st2 !! "EXPO_ROUTER_ABS_APP_ROOT"
          = process_env st1 !! "EXPO_ROUTER_ABS_APP_ROOT"
  | (Throw e, st1) => getExpoRouterAppRoot projectRoot st = (Throw e, st1)
  end.
Proof.
  intros Hc Hres.
  assert (Hrun : getExpoRouterAppRoot projectRoot st =
            (appFolder <- getExpoRouterAbsoluteAppRoot projectRoot ;;
             st' <- get_state ;;
             put_state
               (env_set "EXPO_ROUTER_APP_ROOT_2"
                  (nodePath_relative (nodePath_dirname routerEntry) appFolder)
                  st') ;;;
             ret (nodePath_relative (nodePath_dirname routerEntry) appFolder))
              st).
  { unfold getExpoRouterAppRoot. unfold bind at 1. unfold get_state at 1.
    rewrite Hc, Hres. reflexivity. }
  destruct (getExpoRouterAbsoluteAppRoot projectRoot st) as [[a|e] st1] eqn:Ha;
    rewrite Hrun; unfold bind at 1; rewrite Ha; [|reflexivity].
  cbv zeta. eexists. split; [reflexivity|]. simpl. split.
  - apply lookup_insert_eq.
  - apply lookup_insert_ne. discriminate.
Qed.

(** When [getExpoRouterAppRoot] returns a root that is not the empty
    string, every later call returns it from [process.env], for any
    project root and without resolving [expo-router/entry] again. *)
Theorem app_root_cached (projectRoot projectRoot' appRoot : string)
    (st st' : Process) :
  getExpoRouterAppRoot projectRoot st = (Ok appRoot, st') ->
  appRoot ≠ "" ->
  getExpoRouterAppRoot projectRoot' st' = (Ok appRoot, st').
Proof.
  intros Hrun Hne.
  assert (Hc : env_cached st' "EXPO_ROUTER_APP_ROOT_2" = Some appRoot).
  { revert Hrun. unfold getExpoRouterAppRoot.
    unfold bind at 1. unfold get_state at 1.
    destruct (env_cached st "EXPO_ROUTER_APP_ROOT_2") as [m|] eqn:Hc.
    - intros [= <- <-]. exact Hc.
    - destruct (resolveFrom projectRoot "expo-router/entry");
        [|discriminate].
      unfold bind at 1.
      destruct (getExpoRouterAbsoluteAppRoot projectRoot st) as [[a|msg] sta];
        [|discriminate].
      intros [= <- <-]. rewrite env_cached_env_set.
      apply String.eqb_neq in Hne. rewrite Hne. reflexivity. }
  unfold getExpoRouterAppRoot. unfold bind at 1. unfold get_state at 1.
  rewrite Hc. reflexivity.
Qed.

End AppRootCaches.

(** * Further properties of [expoRouterBabelPlugin] *)

Section InlinedValues.
Context {host : Host}.
Variable c : Caller.

(** A read of [EXPO_PROJECT_ROOT] whose parent is not an assignment,
    standing where an expression is accepted, becomes the string
    [possibleProjectRoot || state.file.opts.root || ''], in every build
    environment, and no resolver runs. Standing where a literal is not
    accepted (the target of a [for]-[of], say), it makes [replaceWith]
    throw a [TypeError]. *)
Theorem project_root_inlined (obj : node) (computed : bool) (st : Process) :
  is_process_env obj = true ->
  let read := MemberExpression obj (Identifier "EXPO_PROJECT_ROOT") computed in
  visit c false AcceptsExpression read st
    = (Ok (StringLiteral
             (or_else (possibleProjectRoot c) (or_else (opts_root c) ""))),
       st)
  ∧ visit c false RejectsLiteral read st = (Throw TypeError, st).
Proof.
  intros Hobj read. unfold read.
  split; rewrite visit_MemberExpression, Hobj; reflexivity.
Qed.

(** A read of [EXPO_PUBLIC_USE_STATIC] whose parent is not an assignment,
    standing where an expression is accepted, becomes a boolean literal,
    which is [true] exactly when the platform is [web] and the environment
    variable is ["true"] or ["1"]. Standing where a literal is not
    accepted, it makes [replaceWith] throw a [TypeError]. *)
Theorem use_static_inlined (obj : node) (computed : bool) (st : Process) :
  is_process_env obj = true ->
  let read :=
    MemberExpression obj (Identifier "EXPO_PUBLIC_USE_STATIC") computed in
  ∃ b : bool,
    visit c false AcceptsExpression read st = (Ok (BooleanLiteral b), st)
    ∧ visit c false RejectsLiteral read st = (Throw TypeError, st)
    ∧ (b = true ↔
       platform c = Some "web"
       ∧ (process_env st !! "EXPO_PUBLIC_USE_STATIC" = Some "true"
          ∨ process_env st !! "EXPO_PUBLIC_USE_STATIC" = Some "1")).
Proof.
  intros Hobj read. unfold read. eexists.
  split; [|split].
  - rewrite visit_MemberExpression, Hobj. unfold bind.
    rewrite env_read_use_static. reflexivity.
  - rewrite visit_MemberExpression, Hobj. unfold bind.
    rewrite env_read_use_static. reflexivity.
  - destruct (platform c) as [p|]; simpl.
    + destruct (p =? "web") eqn:Hweb; simpl.
      * apply String.eqb_eq in Hweb. subst p. unfold env_get.
        destruct (process_env st !! "EXPO_PUBLIC_USE_STATIC") as [v|]; simpl.
        -- rewrite orb_true_iff, !String.eqb_eq. split.
           ++ intros [-> | ->]; auto.
           ++ intros [_ [[= ->] | [= ->]]]; auto.
        -- split; [discriminate|]. intros [_ [H | H]]; discriminate.
      * apply String.eqb_neq in Hweb.
        split; [discriminate|]. intros [[= ->] _]. contradiction.
    + split; [discriminate|]. intros [H _]. discriminate.
Qed.

(** A read of the import-mode variable of the caller's own platform,
    with a parent that is not an assignment, runs
    [getExpoRouterImportMode] in every build environment and then replaces
    the read by the resolver's string: that string literal takes its place
    where an expression is accepted, [replaceWith] throws where it is not,
    and when the resolver throws, so does the visit. *)
Theorem import_mode_read_inlined (p : string) (obj : node) (computed : bool)
    (f : field) (st : Process) :
  platform c = Some p -> p ≠ "" -> is_process_env obj = true ->
  visit c false f
    (MemberExpression obj (Identifier (import_mode_var p)) computed) st
    = (r <- getExpoRouterImportMode (projectRoot_of c) p ;;
       replaceWith f (StringLiteral r)) st.
Proof.
  intros Hp Hne Hobj.
  apply (visit_read c _ StringLiteral); [exact Hobj | reflexivity|].
  apply env_read_import_mode; assumption.
Qed.

(** The import-mode variable of another platform is left as written,
    wherever it stands, and so is every import-mode variable when the
    caller names no platform. *)
Theorem other_platform_mode_untouched (q : string) (obj : node)
    (computed b : bool) (f : field) (st : Process) :
  is_process_env obj = true ->
  (∀ p, platform c = Some p -> toUpperCase p ≠ toUpperCase q) ->
  let read := MemberExpression obj (Identifier (import_mode_var q)) computed in
  visit c b f read st = (Ok read, st).
Proof.
  intros Hobj Hother read. apply visit_settled. simpl. rewrite Hobj, andb_true_r.
  apply negb_true_iff. unfold rewritable, recognized.
  change (import_mode_var q =? "EXPO_PROJECT_ROOT") with false.
  change (import_mode_var q =? "EXPO_PUBLIC_USE_STATIC") with false.
  change (import_mode_var q =? "EXPO_ROUTER_ABS_APP_ROOT") with false.
  change (import_mode_var q =? "EXPO_ROUTER_APP_ROOT") with false.
  rewrite !orb_false_r, andb_false_r. simpl orb.
  destruct (platform c) as [p|]; [|apply andb_false_r].
  assert (Hneq : (toUpperCase q =? toUpperCase p) = false).
  { apply String.eqb_neq. intros Heq.
    apply (Hother p); [reflexivity | congruence]. }
  cbv [String.append]. rewrite Hneq, andb_false_r. apply andb_false_r.
Qed.

End InlinedValues.

Section WholePass.
Context {host : Host}.
Variable c : Caller.

Lemma not_mentioned_settled (nodeEnv : jsval) (n : node) :
  ∀ b, mentions_process_env n = false -> settled c nodeEnv b n = true.
Proof.
  induction n as [name|value|value|obj prop computed IHobj IHprop
                 |op l r IHl IHr|ty children IH] using node_ind';
    intros b Hm; try reflexivity.
  - simpl in Hm. apply orb_false_iff in Hm as [_ Hm].
    apply orb_false_iff in Hm as [Ho Hp]. simpl.
    assert (Hobj : is_process_env obj = false).
    { destruct obj; try reflexivity.
      simpl in Ho. apply orb_false_iff in Ho as [Ho _]. exact Ho. }
    rewrite Hobj, IHobj, IHprop by assumption. reflexivity.
  - simpl in Hm. apply orb_false_iff in Hm as [Hl Hr]. simpl.
    rewrite IHl, IHr by assumption. reflexivity.
  - simpl in Hm. simpl.
    induction IH as [|[fx x] l Hx _ IHl]; [reflexivity|].
    simpl in Hm. apply orb_false_iff in Hm as [Hmx Hml]. simpl.
    rewrite Hx, IHl by assumption. reflexivity.
Qed.

(** A file in which no [process.env] member expression occurs goes
    through the pass unchanged, and the pass loads no configuration and
    writes nothing to [process.env]. *)
Theorem no_process_env_untouched (body : list node) (st : Process) :
  forallb (fun n => negb (mentions_process_env n)) body = true ->
  expoRouterBabelPlugin c body st = (Ok body, st).
Proof.
  intros Hm. apply visit_all_settled.
  induction body as [|x l IHl]; [reflexivity|].
  simpl in Hm. apply andb_true_iff in Hm as [Hx Hl].
  apply negb_true_iff in Hx. simpl.
  rewrite (not_mentioned_settled _ _ _ Hx), IHl by assumption. reflexivity.
Qed.

Lemma rewritable_recognized (nodeEnv : jsval) (b : bool) (property : node) :
  rewritable c nodeEnv b property = true ->
  b = false ∧ ∃ name, property = Identifier name
                      ∧ recognized c nodeEnv name = true.
Proof.
  unfold rewritable. destruct b; [discriminate|].
  destruct property; try discriminate. simpl. eauto.
Qed.

Lemma visit_inlines (n : node) :
  ∀ b f st n' st',
    visit c b f n st = (Ok n', st') ->
    inlines c (env_get st "NODE_ENV") n n'.
Proof.
  induction n as [name|value|value|obj prop computed IHobj IHprop
                 |op l r IHl IHr|ty children IH] using node_ind';
    intros b f st n' st' Hrun.
  - injection Hrun as <- _. constructor.
  - injection Hrun as <- _. constructor.
  - injection Hrun as <- _. constructor.
  - rewrite visit_MemberExpression in Hrun.
    destruct (is_process_env obj) eqn:Hobj.
    + apply bind_ok in Hrun as (n1 & st1 & Hread & Hrun).
      apply env_read_result in Hread as [_ Hread].
      destruct (rewritable c (env_get st "NODE_ENV") b prop) eqn:Hrw.
      * apply rewritable_recognized in Hrw as (_ & name & -> & Hrec).
        destruct n1; try discriminate; injection Hrun as <- _;
          apply inlines_read; auto.
      * destruct Hread as [-> ->].
        apply bind_ok in Hrun as (prop' & st2 & Hprop & [= <- _]).
        apply inlines_member; [constructor | eapply IHprop; eauto].
    + apply bind_ok in Hrun as (obj' & st1 & Ho & Hrun).
      apply bind_ok in Hrun as (prop' & st2 & Hp & [= <- _]).
      pose proof (proj2 (visit_settles _ _ _ _ _ _ _ Ho)) as He.
      apply IHobj in Ho. apply IHprop in Hp. rewrite He in Hp.
      apply inlines_member; assumption.
  - rewrite visit_AssignmentExpression in Hrun.
    apply bind_ok in Hrun as (l' & st1 & Hl & Hrun).
    apply bind_ok in Hrun as (r' & st2 & Hr & [= <- _]).
    pose proof (proj2 (visit_settles _ _ _ _ _ _ _ Hl)) as He.
    apply IHl in Hl. apply IHr in Hr. rewrite He in Hr.
    apply inlines_assignment; assumption.
  - rewrite visit_OtherNode in Hrun.
    apply bind_ok in Hrun as (children' & st1 & Hall & [= <- _]).
    apply inlines_other. revert st children' st1 Hall.
    induction IH as [|[fx x] l Hx _ IHl]; intros st children' st1 Hall.
    + injection Hall as <- _. constructor.
    + simpl in Hall.
      apply bind_ok in Hall as (x' & st2 & Hvx & Hall).
      apply bind_ok in Hall as (l' & st3 & Hvl & [= <- _]).
      pose proof (proj2 (visit_settles _ _ _ _ _ _ _ Hvx)) as He.
      apply Hx in Hvx. apply IHl in Hvl. rewrite He in Hvl.
      constructor; [split; [reflexivity | assumption] | assumption].
Qed.

(** The output of a run that returns is the input with reads
    [process.env.<NAME>] of recognized names replaced by literals and
    nothing else changed: statements are not added, removed or reordered,
    and no other node is touched. *)
Theorem pass_only_inlines (body body' : list node) (st st' : Process) :
  expoRouterBabelPlugin c body st = (Ok body', st') ->
  Forall2 (inlines c (env_get st "NODE_ENV")) body body'
  ∧ List.length body' = List.length body.
Proof.
  unfold expoRouterBabelPlugin. intros Hrun.
  assert (H : Forall2 (inlines c (env_get st "NODE_ENV")) body body').
  { revert st body' st' Hrun.
    induction body as [|x l IHl]; intros st body' st' Hrun.
    - injection Hrun as <- _. constructor.
    - simpl in Hrun.
      apply bind_ok in Hrun as (x' & st1 & Hvx & Hrun).
      apply bind_ok in Hrun as (l' & st2 & Hvl & [= <- _]).
      pose proof (proj2 (visit_settles _ _ _ _ _ _ _ Hvx)) as He.
      apply visit_inlines in Hvx. apply IHl in Hvl. rewrite He in Hvl.
      constructor; assumption. }
  split; [exact H|]. symmetry. eapply Forall2_length; eauto.
Qed.

End WholePass.

Section PassEffects.
Context {host : Host}.
Variable c : Caller.
Variable k : string.
Hypothesis not_cache_key : cache_key c k = false.

Lemma bind_inv {A B} (m : M A) (f : A -> M B) st r st' :
  bind m f st = (r, st') ->
  (∃ a st1, m st = (Ok a, st1) ∧ f a st1 = (r, st'))
  ∨ (∃ msg, m st = (Throw msg, st') ∧ r = Throw msg).
Proof.
  unfold bind. destruct (m st) as [[a|msg] st1].
  - eauto.
  - intros [= <- <-]. eauto.
Qed.

Lemma not_cache_key_cases :
  k ≠ "EXPO_ROUTER_ABS_APP_ROOT" ∧ k ≠ "EXPO_ROUTER_APP_ROOT_2"
  ∧ ∀ p, platform c = Some p -> k ≠ import_mode_var p.
Proof.
  pose proof not_cache_key as H. unfold cache_key in H.
  apply orb_false_iff in H as [H Hp]. apply orb_false_iff in H as [Ha Hr].
  apply String.eqb_neq in Ha, Hr. repeat split; try assumption.
  intros p Hplat. rewrite Hplat in Hp. apply String.eqb_neq in Hp. exact Hp.
Qed.

Lemma lookup_env_set_ne (key v : string) (st : Process) :
  k ≠ key -> process_env (env_set key v st) !! k = process_env st !! k.
Proof. intros Hne. unfold env_set. simpl. apply lookup_insert_ne. congruence. Qed.

Lemma abs_app_root_frame projectRoot st r st' :
  getExpoRouterAbsoluteAppRoot projectRoot st = (r, st') ->
  process_env st' !! k = process_env st !! k.
Proof.
  destruct not_cache_key_cases as (Ha & _ & _).
  rewrite getExpoRouterAbsoluteAppRoot_run.
  destruct (env_cached st _); [intros [= <- <-]; reflexivity|].
  destruct (customSrc_of _ _); intros [= <- <-]; try reflexivity.
  rewrite lookup_env_set_ne by exact Ha. reflexivity.
Qed.

Lemma app_root_frame projectRoot st r st' :
  getExpoRouterAppRoot projectRoot st = (r, st') ->
  process_env st' !! k = process_env st !! k.
Proof.
  destruct not_cache_key_cases as (_ & Hr & _).
  unfold getExpoRouterAppRoot.
  unfold bind at 1. unfold get_state at 1.
  destruct (env_cached st "EXPO_ROUTER_APP_ROOT_2").
  - intros [= <- <-]. reflexivity.
  - destruct (resolveFrom projectRoot "expo-router/entry").
    + unfold bind at 1.
      destruct (getExpoRouterAbsoluteAppRoot projectRoot st) as [ra sta] eqn:Ha.
      pose proof (abs_app_root_frame _ _ _ _ Ha) as Hf.
      destruct ra as [a|e]; intros [= <- <-]; [|exact Hf].
      rewrite lookup_env_set_ne by exact Hr. exact Hf.
    + intros [= <- <-]. reflexivity.
Qed.

Lemma import_mode_frame projectRoot p st r st' :
  platform c = Some p ->
  getExpoRouterImportMode projectRoot p st = (r, st') ->
  process_env st' !! k = process_env st !! k.
Proof.
  intros Hp. destruct not_cache_key_cases as (_ & _ & Hm).
  rewrite getExpoRouterImportMode_run.
  destruct (env_cached st (import_mode_var p)).
  - intros [= <- <-]. reflexivity.
  - cbv zeta. destruct (_ && _); intros [= <- <-]; [reflexivity|].
    rewrite lookup_env_set_ne by (apply Hm; exact Hp). reflexivity.
Qed.

Lemma replaceWith_frame (f : field) (lit : node) st r st' :
  replaceWith f lit st = (r, st') -> st' = st.
Proof. intros H. apply replaceWith_result in H as [-> _]. reflexivity. Qed.

Lemma env_read_frame (b : bool) (f : field) (parent property : node) st r st' :
  env_read c b f parent property st = (r, st') ->
  process_env st' !! k = process_env st !! k
  ∧ ∀ e, r = Throw e ->
         e = production_error ∨ e = resolve_error ∨ e = TypeError.
Proof.
  intros Hrun.
  destruct (rewritable c (env_get st "NODE_ENV") b property) eqn:Hrw.
  - destruct b; [rewrite rewritable_in_assignment in Hrw; discriminate|].
    pose proof (env_read_replace c _ _ _ _ _ _ Hrw Hrun) as [_ Hres].
    split.
    + revert Hrun. unfold env_read.
      unfold bind at 1. unfold get_state at 1.
      destruct (_ && _);
        [intros H; apply replaceWith_frame in H as ->; reflexivity|].
      destruct (_ && _).
      { destruct (strict_eq _ _); intros H;
          apply replaceWith_frame in H as ->; reflexivity. }
      destruct (_ && _ && _).
      { unfold bind.
        destruct (getExpoRouterAbsoluteAppRoot _ st) as [ra sta] eqn:Ha.
        apply abs_app_root_frame in Ha.
        destruct ra; [|intros [= _ <-]; exact Ha].
        intros H. apply replaceWith_frame in H as ->. exact Ha. }
      destruct (_ && _ && _).
      { unfold bind.
        destruct (getExpoRouterAppRoot _ st) as [ra sta] eqn:Ha.
        apply app_root_frame in Ha.
        destruct ra; [|intros [= _ <-]; exact Ha].
        intros H. apply replaceWith_frame in H as ->. exact Ha. }
      destruct (platform c) as [p|] eqn:Hp; [|intros [= _ <-]; reflexivity].
      destruct (_ && _ && _); [|intros [= _ <-]; reflexivity].
      unfold bind.
      destruct (getExpoRouterImportMode _ p st) as [ra sta] eqn:Ha.
      apply (import_mode_frame _ _ _ _ _ Hp) in Ha.
      destruct ra; [|intros [= _ <-]; exact Ha].
      intros H. apply replaceWith_frame in H as ->. exact Ha.
    + intros e ->. exact Hres.
  - rewrite (env_read_skip c _ _ _ _ _ Hrw) in Hrun.
    injection Hrun as <- <-. split; [reflexivity | discriminate].
Qed.

Lemma visit_frame (n : node) :
  ∀ b f st r st',
    visit c b f n st = (r, st') ->
    process_env st' !! k = process_env st !! k
    ∧ ∀ e, r = Throw e ->
           e = production_error ∨ e = resolve_error ∨ e = TypeError.
Proof.
  induction n as [name|value|value|obj prop computed IHobj IHprop
                 |op l r0 IHl IHr|ty children IH] using node_ind';
    intros b f st r st' Hrun.
  - injection Hrun as <- <-. split; [reflexivity | discriminate].
  - injection Hrun as <- <-. split; [reflexivity | discriminate].
  - injection Hrun as <- <-. split; [reflexivity | discriminate].
  - rewrite visit_MemberExpression in Hrun.
    destruct (is_process_env obj).
    + apply bind_inv in Hrun as [(n1 & st1 & Hread & Hrun) | (msg & Hread & ->)].
      * apply env_read_frame in Hread as [Hf1 _].
        destruct n1; try (injection Hrun as <- <-;
                          split; [exact Hf1 | discriminate]).
        apply bind_inv in Hrun as [(p' & st2 & Hp & [= <- <-]) | (msg & Hp & ->)];
          apply IHprop in Hp as [Hf2 He2].
        -- split; [congruence | discriminate].
        -- split; [congruence | intros m [= <-]; apply He2; reflexivity].
      * apply env_read_frame in Hread as [Hf1 He1].
        split; [exact Hf1 | intros m [= <-]; apply He1; reflexivity].
    + apply bind_inv in Hrun as [(o' & st1 & Ho & Hrun) | (msg & Ho & ->)];
        apply IHobj in Ho as [Hf1 He1].
      * apply bind_inv in Hrun as [(p' & st2 & Hp & [= <- <-]) | (msg & Hp & ->)];
          apply IHprop in Hp as [Hf2 He2].
        -- split; [congruence | discriminate].
        -- split; [congruence | intros m [= <-]; apply He2; reflexivity].
      * split; [exact Hf1 | intros m [= <-]; apply He1; reflexivity].
  - rewrite visit_AssignmentExpression in Hrun.
    apply bind_inv in Hrun as [(l' & st1 & Hl & Hrun) | (msg & Hl & ->)];
      apply IHl in Hl as [Hf1 He1].
    + apply bind_inv in Hrun as [(r' & st2 & Hr & [= <- <-]) | (msg & Hr & ->)];
        apply IHr in Hr as [Hf2 He2].
      * split; [congruence | discriminate].
      * split; [congruence | intros m [= <-]; apply He2; reflexivity].
    + split; [exact Hf1 | intros m [= <-]; apply He1; reflexivity].
  - rewrite visit_OtherNode in Hrun.
    assert (Hall : ∀ st ra sta,
              visit_children c children st = (ra, sta) ->
              process_env sta !! k = process_env st !! k
              ∧ ∀ e, ra = Throw e ->
                     e = production_error ∨ e = resolve_error ∨ e = TypeError).
    { clear Hrun. induction IH as [|[fx x] l Hx _ IHl]; intros st0 ra sta Hrun.
      - injection Hrun as <- <-. split; [reflexivity | discriminate].
      - simpl in Hrun.
        apply bind_inv in Hrun as [(x' & st1 & Hvx & Hrun) | (msg & Hvx & ->)];
          apply Hx in Hvx as [Hf1 He1].
        + apply bind_inv in Hrun
            as [(l' & st2 & Hvl & [= <- <-]) | (msg & Hvl & ->)];
            apply IHl in Hvl as [Hf2 He2].
          * split; [congruence | discriminate].
          * split; [congruence | intros m [= <-]; apply He2; reflexivity].
        + split; [exact Hf1 | intros m [= <-]; apply He1; reflexivity]. }
    apply bind_inv in Hrun as [(cs' & st1 & Hcs & [= <- <-]) | (msg & Hcs & ->)];
      apply Hall in Hcs as [Hf He].
    + split; [exact Hf | discriminate].
    + split; [exact Hf | intros m [= <-]; apply He; reflexivity].
Qed.

(** Whatever the outcome of a run, the only variables of [process.env]
    it can have written are the caller's three cache keys; every other
    variable is as before. A run that fails does so with the production
    error of [getExpoRouterImportMode], because [expo-router/entry] did
    not resolve, or with a [TypeError] (of [replaceWith] for a read that
    stands where a literal is not accepted, or of line 102 for a custom
    source directory that is not a string). *)
Theorem pass_effects (body : list node) (st st' : Process)
    (r : result (list node)) :
  expoRouterBabelPlugin c body st = (r, st') ->
  process_env st' !! k = process_env st !! k
  ∧ ∀ e, r = Throw e ->
         e = production_error ∨ e = resolve_error ∨ e = TypeError.
Proof.
  unfold expoRouterBabelPlugin. revert st r st'.
  induction body as [|x l IHl]; intros st r st' Hrun.
  - injection Hrun as <- <-. split; [reflexivity | discriminate].
  - simpl in Hrun.
    apply bind_inv in Hrun as [(x' & st1 & Hvx & Hrun) | (msg & Hvx & ->)];
      apply visit_frame in Hvx as [Hf1 He1].
    + apply bind_inv in Hrun
        as [(l' & st2 & Hvl & [= <- <-]) | (msg & Hvl & ->)];
        apply IHl in Hvl as [Hf2 He2].
      * split; [congruence | discriminate].
      * split; [congruence | intros m [= <-]; apply He2; reflexivity].
    + split; [exact Hf1 | intros m [= <-]; apply He1; reflexivity].
Qed.

End PassEffects.

(** * Further properties of the client references plugin *)

Section StubModules.
Context {host : Host}.

(** For the server target and a module with the directive: when the run
    returns, the module comes out with no directives and with exactly one
    statement per collected export name (none when there are no exports),
    and the file metadata is not written; the run throws, with a
    [TypeError], exactly when one of the collected names is [undefined]. *)
Theorem server_output_shape (serverRoot filename : string)
    (program : Program) (metadata : Metadata) :
  "use client" ∈ directives program ->
  match expoRouterServerComponentClientReferencesPlugin
          true serverRoot filename program metadata with
  | Ok out =>
      directives (fst out) = []
      ∧ List.length (body (fst out))
        = List.length (collect_exports (body program))
      ∧ snd out = metadata
      ∧ (collect_exports (body program) = [] -> body (fst out) = [])
      ∧ None ∉ collect_exports (body program)
  | Throw e => e = TypeError ∧ None ∈ collect_exports (body program)
  end.
Proof.
  intros Hdir. apply has_use_client in Hdir.
  unfold expoRouterServerComponentClientReferencesPlugin.
  rewrite Hdir. simpl. rewrite push_stubs_run.
  destruct (defined_names (collect_exports (body program))) as [ns|] eqn:Hn.
  - apply defined_names_Some in Hn. simpl. rewrite Hn.
    repeat split.
    + rewrite !length_map. reflexivity.
    + intros Hnil. destruct ns; [reflexivity | discriminate].
    + intros Hin. apply list_elem_of_fmap in Hin as (x & Hx & _).
      discriminate.
  - apply defined_names_None in Hn. auto.
Qed.

(** The module a server-target run returns carries no directive: a later
    run of the plugin on it, for either target and any file name, leaves it
    as it is and records no manifest entry. *)
Theorem stub_module_is_final (isServer : bool)
    (serverRoot filename serverRoot' filename' : string)
    (program stubs : Program) (metadata metadata0 metadata' : Metadata) :
  "use client" ∈ directives program ->
  expoRouterServerComponentClientReferencesPlugin
    true serverRoot filename program metadata = Ok (stubs, metadata0) ->
  expoRouterServerComponentClientReferencesPlugin
    isServer serverRoot' filename' stubs metadata' = Ok (stubs, metadata').
Proof.
  intros Hdir Hrun. apply has_use_client in Hdir.
  assert (Hd : directives stubs = []).
  { revert Hrun. unfold expoRouterServerComponentClientReferencesPlugin.
    rewrite Hdir. simpl. destruct (push_stubs _ _ _); [|discriminate].
    intros [= <- _]. reflexivity. }
  unfold expoRouterServerComponentClientReferencesPlugin.
  rewrite Hd. reflexivity.
Qed.

End StubModules.

(** * Examples on concrete inputs *)

(** C10: the claim fails for a second project root. After a call for [/a],
    the first call for [/b] returns the configuration of [/a], which is not
    the configuration of [/b]. *)
Lemma getConfigMemo_second_root :
  let st1 := snd (getConfigMemo (host := two_roots_host) "/a" (process_with [])) in
  fst (getConfigMemo (host := two_roots_host) "/b" st1)
    = Ok (getConfig (Host := two_roots_host) "/a")
  ∧ getConfig (Host := two_roots_host) "/a"
    ≠ getConfig (Host := two_roots_host) "/b".
Proof. split; [reflexivity | discriminate]. Qed.

(** C2: the claim fails. In production with a setting that selects lazy
    the call throws instead of returning ["sync"], and a cached override
    ["lazy"] is returned in production. *)
Lemma production_lazy_is_not_sync :
  let h := example_host (example_config (VStr "production") VUndefined) in
  fst (getExpoRouterImportMode (host := h) "/p" "ios"
         (process_with [("NODE_ENV", "production")]))
    = Throw production_error
  ∧ fst (getExpoRouterImportMode (host := h) "/p" "ios"
           (process_with [("NODE_ENV", "production");
                          ("EXPO_ROUTER_IMPORT_MODE_IOS", "lazy")]))
    = Ok "lazy".
Proof. split; vm_compute; reflexivity. Qed.

Lemma import_mode_in_production_witness :
  let h := example_host (example_config (VStr "production") VUndefined) in
  let st := process_with [("NODE_ENV", "production")] in
  build_env st = VStr "production"
  ∧ fst (getExpoRouterImportMode (host := h) "/p" "ios" st) ≠ Ok "lazy".
Proof.
  split; [reflexivity|].
  exact (proj1 (import_mode_in_production
                  (host := example_host (example_config (VStr "production") VUndefined))
                  "/p" "ios" (process_with [("NODE_ENV", "production")])
                  eq_refl)).
Defined.

(** C3: the scenario of the claim does not throw. Project root [/p],
    platform web, setting ["development"], environment production: the
    call returns ["sync"]. *)
Lemma development_setting_in_production :
  let h := example_host (example_config (VStr "development") VUndefined) in
  fst (getExpoRouterImportMode (host := h) "/p" "web"
         (process_with [("NODE_ENV", "production")]))
    = Ok "sync".
Proof. vm_compute. reflexivity. Qed.

Lemma production_lazy_throws_witness :
  let h := example_host (example_config (VStr "production") VUndefined) in
  let st := process_with [("NODE_ENV", "production")] in
  build_env st = VStr "production"
  ∧ env_cached st (import_mode_var "web") = None
  ∧ candidate_mode (build_env st)
      (asyncRoutesSetting (resolved_config (host := h) "/p" st) "web") = "lazy"
  ∧ ∃ st', getExpoRouterImportMode (host := h) "/p" "web" st
             = (Throw production_error, st')
           ∧ process_env st' = process_env st.
Proof.
  split; [reflexivity|]. split; [reflexivity|]. split; [reflexivity|].
  exact (proj1 (production_lazy_throws
                  (host := example_host (example_config (VStr "production") VUndefined))
                  "/p" "web" (process_with [("NODE_ENV", "production")])
                  eq_refl eq_refl) eq_refl).
Defined.

(** C4: the claim fails. Web platform, static output, production and a
    setting that selects lazy: the call throws. *)
Lemma web_static_production_throws :
  let h := example_host (example_config (VStr "production") (VStr "static")) in
  fst (getExpoRouterImportMode (host := h) "/p" "web"
         (process_with [("NODE_ENV", "production")]))
    = Throw production_error.
Proof. vm_compute. reflexivity. Qed.

Lemma web_static_sync_witness :
  let h := example_host (example_config (VStr "development") (VStr "static")) in
  let st := process_with [("NODE_ENV", "development")] in
  env_cached st (import_mode_var "web") = None
  ∧ web_output (exp (resolved_config (host := h) "/p" st)) = VStr "static"
  ∧ fst (getExpoRouterImportMode (host := h) "/p" "web" st) = Ok "sync".
Proof.
  split; [reflexivity|]. split; [reflexivity|].
  rewrite (web_static_sync
             (host := example_host (example_config (VStr "development") (VStr "static")))
             "/p" (process_with [("NODE_ENV", "development")])
             eq_refl eq_refl).
  reflexivity.
Defined.

(** C5: the claim fails for a read that is the right operand of an
    assignment. [x = process.env.EXPO_PROJECT_ROOT] is not an assignment
    target, its name is recognized, and the pass leaves it as written. *)
Lemma assignment_source_not_replaced :
  let h := example_host (example_config VUndefined VUndefined) in
  expoRouterBabelPlugin (host := h) web_caller [assign_from_env] (process_with [])
    = (Ok [assign_from_env], process_with [])
  ∧ recognized web_caller (env_get (process_with []) "NODE_ENV")
      "EXPO_PROJECT_ROOT" = true.
Proof. split; vm_compute; reflexivity. Qed.

Lemma env_read_assignment_target_witness :
  let h := example_host (example_config VUndefined VUndefined) in
  let obj := MemberExpression (Identifier "process") (Identifier "env") false in
  let read name := MemberExpression obj (Identifier name) false in
  let st := process_with [("EXPO_PUBLIC_USE_STATIC", "1")] in
  is_process_env obj = true
  ∧ visit (host := h) web_caller false AcceptsExpression
      (AssignmentExpression "=" (read "EXPO_PROJECT_ROOT") (StringLiteral "/q"))
      st
    = (Ok (AssignmentExpression "=" (read "EXPO_PROJECT_ROOT")
             (StringLiteral "/q")), st)
  ∧ visit (host := h) web_caller false AcceptsExpression
      (read "EXPO_PROJECT_ROOT") st
    = (Ok (StringLiteral "/p"), st)
  ∧ visit (host := h) web_caller false AcceptsExpression
      (read "EXPO_PUBLIC_USE_STATIC") st
    = (Ok (BooleanLiteral true), st).
Proof.
  split; [reflexivity|].
  destruct (env_read_assignment_target
              (host := example_host (example_config VUndefined VUndefined))
              web_caller
              (MemberExpression (Identifier "process") (Identifier "env") false)
              false (process_with [("EXPO_PUBLIC_USE_STATIC", "1")]) eq_refl)
    as (Hassign & Hroot & Hstatic & _).
  split; [|split].
  - rewrite Hassign. reflexivity.
  - exact Hroot.
  - exact Hstatic.
Defined.

Lemma expoRouterBabelPlugin_idempotent_witness :
  let h := example_host (example_config (VStr "development") VUndefined) in
  let st := process_with [("NODE_ENV", "development")] in
  let body' := [log_env_inlined] in
  let st' := snd (expoRouterBabelPlugin (host := h) web_caller [log_env] st) in
  expoRouterBabelPlugin (host := h) web_caller [log_env] st = (Ok body', st')
  ∧ expoRouterBabelPlugin (host := h) web_caller body' st' = (Ok body', st').
Proof.
  split; [vm_compute; reflexivity|].
  exact (proj2 (expoRouterBabelPlugin_idempotent
                  (host := example_host (example_config (VStr "development") VUndefined))
                  web_caller [log_env] _ (process_with [("NODE_ENV", "development")]) _
                  eq_refl)).
Defined.

(** C8: the claim fails twice. With [BABEL_ENV=test] and no [NODE_ENV] the
    build environment of [getExpoRouterImportMode] is ["test"], and the
    pass still rewrites a read of [EXPO_ROUTER_ABS_APP_ROOT]. In
    development, the read in [x = process.env.EXPO_ROUTER_ABS_APP_ROOT] is
    left as written. *)
Lemma app_root_rewriting_exceptions :
  let h := example_host (example_config VUndefined VUndefined) in
  (build_env (process_with [("BABEL_ENV", "test")]) = VStr "test"
   ∧ fst (expoRouterBabelPlugin (host := h) web_caller
            [read_statement "EXPO_ROUTER_ABS_APP_ROOT"]
            (process_with [("BABEL_ENV", "test")]))
     = Ok [OtherNode "ExpressionStatement"
             [(AcceptsExpression, StringLiteral "/p/app")]])
  ∧ expoRouterBabelPlugin (host := h) web_caller [assign_from_abs_app_root]
      (process_with [("NODE_ENV", "development")])
    = (Ok [assign_from_abs_app_root],
       process_with [("NODE_ENV", "development")]).
Proof. repeat split; vm_compute; reflexivity. Qed.

Lemma app_root_test_exemption_witness :
  let h := example_host (example_config VUndefined VUndefined) in
  let obj := MemberExpression (Identifier "process") (Identifier "env") false in
  let st := process_with [("NODE_ENV", "development")] in
  is_process_env obj = true
  ∧ env_get st "NODE_ENV" ≠ VStr "test"
  ∧ fst (expoRouterBabelPlugin (host := h) web_caller
           [read_statement "EXPO_ROUTER_ABS_APP_ROOT"] st)
    = Ok [OtherNode "ExpressionStatement"
            [(AcceptsExpression, StringLiteral "/p/app")]]
  ∧ fst (expoRouterBabelPlugin (host := h) web_caller
           [read_statement "EXPO_ROUTER_APP_ROOT"] st)
    = Ok [OtherNode "ExpressionStatement"
            [(AcceptsExpression, StringLiteral "../../app")]].
Proof.
  assert (Hne : env_get (process_with [("NODE_ENV", "development")]) "NODE_ENV"
                ≠ VStr "test") by discriminate.
  split; [reflexivity|]. split; [exact Hne|].
  destruct (proj2 (proj2 (proj2
              (app_root_test_exemption
                 (host := example_host (example_config VUndefined VUndefined))
                 web_caller
                 (MemberExpression (Identifier "process") (Identifier "env") false)
                 false (process_with [("NODE_ENV", "development")]) eq_refl)
              Hne)) [] [] (process_with [("NODE_ENV", "development")]) eq_refl)
    as [Habs Hrel].
  split.
  - change [read_statement "EXPO_ROUTER_ABS_APP_ROOT"]
      with ([] ++ [read_statement "EXPO_ROUTER_ABS_APP_ROOT"])%list.
    unfold read_statement, process_env_member. rewrite Habs.
    vm_compute. reflexivity.
  - change [read_statement "EXPO_ROUTER_APP_ROOT"]
      with ([] ++ [read_statement "EXPO_ROUTER_APP_ROOT"])%list.
    unfold read_statement, process_env_member. rewrite Hrel.
    vm_compute. reflexivity.
Defined.

(** C1. The claim fails on the code for a module whose export binds a
    pattern: ['use client'; export const { a, b } = obj;]. The declarator's
    [id] has no [name], so the client run records the export list
    [[undefined]] and the server run throws in [t.identifier(undefined)]:
    no stub is generated for the names of the manifest. *)
Theorem destructuring_export_breaks_stubs :
  let h := example_host (example_config VUndefined VUndefined) in
  expoRouterServerComponentClientReferencesPlugin (host := h)
    false "/srv" "/srv/components/Foo.js" destructuring_module no_metadata
    = Ok (destructuring_module,
          {| clientReferences :=
               Some {| entryPoint := "/components/Foo.js";
                       exports := [None] |} |})
  ∧ expoRouterServerComponentClientReferencesPlugin (host := h)
      true "/srv" "/srv/components/Foo.js" destructuring_module no_metadata
    = Throw TypeError.
Proof. split; vm_compute; reflexivity. Qed.

(** The two runs agree on a module whose exports bind identifiers, and
    exports nested in a TypeScript namespace are collected too. *)
Lemma stubs_match_manifest_example :
  let h := example_host (example_config VUndefined VUndefined) in
  ("use client" ∈ directives client_module)
  ∧ (∃ entry stubs,
       expoRouterServerComponentClientReferencesPlugin (host := h)
         false "/srv" "/srv/components/Foo.js" client_module no_metadata
         = Ok (client_module, {| clientReferences := Some entry |})
       ∧ exports entry = [Some "a"; Some "b"; Some "default"]
       ∧ expoRouterServerComponentClientReferencesPlugin (host := h)
           true "/srv" "/srv/components/Foo.js" client_module no_metadata
         = Ok ({| directives := []; body := stubs |}, no_metadata)
       ∧ map descriptor_id stubs
         = [Some "/components/Foo.js#a"; Some "/components/Foo.js#b";
            Some "/components/Foo.js#default"])
  ∧ collect_exports (body namespace_module) = [Some "N"; Some "x"].
Proof.
  split; [apply list_elem_of_here|]. split; [|reflexivity].
  destruct (stubs_match_manifest
              (host := example_host (example_config VUndefined VUndefined))
              "/srv" "/srv/components/Foo.js" client_module no_metadata
              no_metadata (list_elem_of_here _ _))
    as (entry & Hclient & Hentry & Hexports & Hserver).
  rewrite Hexports in Hserver. simpl in Hserver.
  destruct Hserver as (stubs & Hserver & Hids & _).
  exists entry, stubs. split; [exact Hclient|]. split; [exact Hexports|].
  split; [exact Hserver|]. rewrite Hids. unfold manifest_ids.
  rewrite Hexports, Hentry. vm_compute. reflexivity.
Qed.

Lemma no_directive_no_change_witness :
  let h := example_host (example_config VUndefined VUndefined) in
  ("use client" ∉ directives server_module)
  ∧ expoRouterServerComponentClientReferencesPlugin (host := h)
      true "/srv" "/srv/lib/a.js" server_module no_metadata
    = Ok (server_module, no_metadata).
Proof.
  split; [apply not_elem_of_nil|].
  exact (no_directive_no_change
           (host := example_host (example_config VUndefined VUndefined))
           true "/srv" "/srv/lib/a.js" server_module no_metadata
           (not_elem_of_nil _)).
Defined.

(** C9: the claim's example fails. A default export of a bare identifier
    has a [declaration]; the enumerator adds ["default"] for it, in the
    manifest and in the stubs. *)
Lemma default_identifier_is_exported :
  let h := example_host (example_config VUndefined VUndefined) in
  expoRouterServerComponentClientReferencesPlugin (host := h)
    false "/srv" "/srv/components/foo.js" default_identifier_module no_metadata
    = Ok (default_identifier_module,
          {| clientReferences :=
               Some {| entryPoint := "/components/foo.js";
                       exports := [Some "default"] |} |})
  ∧ ∃ stubs,
      expoRouterServerComponentClientReferencesPlugin (host := h)
        true "/srv" "/srv/components/foo.js" default_identifier_module
        no_metadata
        = Ok ({| directives := []; body := stubs |}, no_metadata)
      ∧ map descriptor_id stubs = [Some "/components/foo.js#default"].
Proof.
  split; [vm_compute; reflexivity|].
  eexists. split; vm_compute; reflexivity.
Qed.

Lemma unrecognized_export_skipped_witness :
  unrecognized (ExportAllDeclaration "./other") = true
  ∧ exports_of (ExportAllDeclaration "./other") = [].
Proof.
  split; [reflexivity|].
  exact (proj1 (unrecognized_export_skipped
                  (host := example_host (example_config VUndefined VUndefined))
                  (ExportAllDeclaration "./other") [] [] eq_refl)).
Defined.

(** * Examples for the further properties *)

Lemma import_mode_cached_witness :
  let h := example_host (example_config (VStr "development") VUndefined) in
  let st := process_with [("NODE_ENV", "development")] in
  let st' := snd (getExpoRouterImportMode (host := h) "/p" "web" st) in
  getExpoRouterImportMode (host := h) "/p" "web" st = (Ok "lazy", st')
  ∧ getExpoRouterImportMode (host := h) "/other" "web" st' = (Ok "lazy", st').
Proof.
  split; [vm_compute; reflexivity|].
  apply (import_mode_cached
           (host := example_host (example_config (VStr "development") VUndefined))
           "/p" "/other" "web" "lazy"
           (process_with [("NODE_ENV", "development")])).
  vm_compute. reflexivity.
Defined.

Lemma import_mode_range_witness :
  let h := example_host (example_config (VStr "development") VUndefined) in
  let st := process_with [("NODE_ENV", "development")] in
  env_cached st (import_mode_var "ios") = None
  ∧ match fst (getExpoRouterImportMode (host := h) "/p" "ios" st) with
    | Ok mode => mode = "sync" ∨ mode = "lazy"
    | Throw msg => msg = production_error ∧ build_env st = VStr "production"
    end.
Proof.
  split; [reflexivity|].
  apply (import_mode_range
           (host := example_host (example_config (VStr "development") VUndefined))
           "/p" "ios" (process_with [("NODE_ENV", "development")])).
  reflexivity.
Defined.

Lemma import_mode_failure_repeats_witness :
  let h := example_host (example_config (VStr "production") VUndefined) in
  let st := process_with [("NODE_ENV", "production")] in
  let st' := snd (getExpoRouterImportMode (host := h) "/p" "ios" st) in
  getExpoRouterImportMode (host := h) "/p" "ios" st
    = (Throw production_error, st')
  ∧ getExpoRouterImportMode (host := h) "/p" "ios" st'
    = (Throw production_error, st').
Proof.
  split; [vm_compute; reflexivity|].
  apply (import_mode_failure_repeats
           (host := example_host (example_config (VStr "production") VUndefined))
           "/p" "ios" production_error
           (process_with [("NODE_ENV", "production")])).
  vm_compute. reflexivity.
Defined.

Lemma async_routes_true_gives_sync_witness :
  let h := example_host (example_config (VBool true) VUndefined) in
  let st := process_with [("NODE_ENV", "development")] in
  env_cached st (import_mode_var "android") = None
  ∧ build_env st = VStr "development"
  ∧ asyncRoutes (exp (resolved_config (host := h) "/p" st)) = VBool true
  ∧ fst (getExpoRouterImportMode (host := h) "/p" "android" st) = Ok "sync".
Proof.
  split; [reflexivity|]. split; [reflexivity|]. split; [reflexivity|].
  apply (async_routes_true_gives_sync
           (host := example_host (example_config (VBool true) VUndefined))
           "/p" "android" "development"
           (process_with [("NODE_ENV", "development")]));
    reflexivity.
Defined.

Lemma import_mode_without_environment_witness :
  let h := example_host (example_config VUndefined VUndefined) in
  let st := process_with [] in
  env_cached st (import_mode_var "ios") = None
  ∧ build_env st = VUndefined
  ∧ asyncRoutesSetting (resolved_config (host := h) "/p" st) "ios" = VUndefined
  ∧ fst (getExpoRouterImportMode (host := h) "/p" "ios" st) = Ok "lazy".
Proof.
  split; [reflexivity|]. split; [reflexivity|]. split; [reflexivity|].
  rewrite (import_mode_without_environment
             (host := example_host (example_config VUndefined VUndefined))
             "/p" "ios" (process_with []) eq_refl eq_refl eq_refl).
  reflexivity.
Defined.

Lemma abs_app_root_cached_witness :
  let h := example_host (example_config VUndefined VUndefined) in
  let st := process_with [] in
  let st' := snd (getExpoRouterAbsoluteAppRoot (host := h) "/p" st) in
  getExpoRouterAbsoluteAppRoot (host := h) "/p" st = (Ok "/p/app", st')
  ∧ "/p/app" ≠ ""
  ∧ getExpoRouterAbsoluteAppRoot (host := h) "/q" st' = (Ok "/p/app", st').
Proof.
  split; [vm_compute; reflexivity|]. split; [discriminate|].
  apply (abs_app_root_cached
           (host := example_host (example_config VUndefined VUndefined))
           "/p" "/q" "/p/app" (process_with []));
    [vm_compute; reflexivity | discriminate].
Defined.

Lemma abs_app_root_absolute_src_witness :
  let h := example_host (custom_src_config (VStr "/routes")) in
  let st := process_with [] in
  env_cached st "EXPO_ROUTER_ABS_APP_ROOT" = None
  ∧ unstable_src (exp (resolved_config (host := h) "/p" st)) = VStr "/routes"
  ∧ startsWith "/" "/routes" = true
  ∧ fst (getExpoRouterAbsoluteAppRoot (host := h) "/p" st) = Ok "/routes".
Proof.
  split; [reflexivity|]. split; [reflexivity|]. split; [reflexivity|].
  exact (proj1 (abs_app_root_absolute_src
                  (host := example_host (custom_src_config (VStr "/routes")))
                  "/p" "/routes" (process_with []) eq_refl eq_refl eq_refl)).
Defined.

Lemma abs_app_root_default_witness :
  let h := example_host (example_config VUndefined VUndefined) in
  let st := process_with [] in
  env_cached st "EXPO_ROUTER_ABS_APP_ROOT" = None
  ∧ truthy (unstable_src (exp (resolved_config (host := h) "/p" st))) = false
  ∧ fst (getExpoRouterAbsoluteAppRoot (host := h) "/p" st) = Ok "/p/app".
Proof.
  split; [reflexivity|]. split; [reflexivity|].
  rewrite (abs_app_root_default
             (host := example_host (example_config VUndefined VUndefined))
             "/p" (process_with []) eq_refl eq_refl).
  reflexivity.
Defined.

Lemma app_root_needs_router_entry_witness :
  let h := bare_host (example_config VUndefined VUndefined) in
  resolveFrom (Host := h) "/p" "expo-router/entry" = None
  ∧ getExpoRouterAppRoot (host := h) "/p" (process_with [])
    = (Throw resolve_error, process_with [])
  ∧ getExpoRouterAppRoot (host := h) "/p"
      (process_with [("EXPO_ROUTER_APP_ROOT_2", "../../app")])
    = (Ok "../../app", process_with [("EXPO_ROUTER_APP_ROOT_2", "../../app")]).
Proof.
  split; [reflexivity|]. split.
  - rewrite (app_root_needs_router_entry
               (host := bare_host (example_config VUndefined VUndefined))
               "/p" (process_with []) eq_refl).
    reflexivity.
  - rewrite (app_root_needs_router_entry
               (host := bare_host (example_config VUndefined VUndefined))
               "/p" (process_with [("EXPO_ROUTER_APP_ROOT_2", "../../app")])
               eq_refl).
    reflexivity.
Defined.

Lemma app_root_relative_to_entry_witness :
  let h := example_host (example_config VUndefined VUndefined) in
  let st := process_with [] in
  env_cached st "EXPO_ROUTER_APP_ROOT_2" = None
  ∧ resolveFrom (Host := h) "/p" "expo-router/entry"
    = Some "/p/node_modules/expo-router/entry.js"
  ∧ fst (getExpoRouterAbsoluteAppRoot (host := h) "/p" st) = Ok "/p/app"
  ∧ fst (getExpoRouterAppRoot (host := h) "/p" st) = Ok "../../app".
Proof.
  split; [reflexivity|]. split; [reflexivity|]. split; [reflexivity|].
  pose proof (app_root_relative_to_entry
                (host := example_host (example_config VUndefined VUndefined))
                "/p" "/p/node_modules/expo-router/entry.js" (process_with [])
                eq_refl eq_refl) as H.
  destruct (getExpoRouterAbsoluteAppRoot
              (host := example_host (example_config VUndefined VUndefined))
              "/p" (process_with [])) as [[appFolder|e] st1] eqn:Habs.
  - destruct H as (st2 & Hrel & _). rewrite Hrel.
    assert (Hfolder : appFolder = "/p/app").
    { vm_compute in Habs. injection Habs as <- _. reflexivity. }
    rewrite Hfolder. reflexivity.
  - vm_compute in Habs. discriminate.
Defined.

Lemma app_root_cached_witness :
  let h := example_host (example_config VUndefined VUndefined) in
  let st := process_with [] in
  let st' := snd (getExpoRouterAppRoot (host := h) "/p" st) in
  getExpoRouterAppRoot (host := h) "/p" st = (Ok "../../app", st')
  ∧ "../../app" ≠ ""
  ∧ getExpoRouterAppRoot (host := h) "/q" st' = (Ok "../../app", st').
Proof.
  split; [vm_compute; reflexivity|]. split; [discriminate|].
  apply (app_root_cached
           (host := example_host (example_config VUndefined VUndefined))
           "/p" "/q" "../../app" (process_with []));
    [vm_compute; reflexivity | discriminate].
Defined.

Lemma project_root_inlined_witness :
  let h := example_host (example_config VUndefined VUndefined) in
  let obj := MemberExpression (Identifier "process") (Identifier "env") false in
  let st := process_with [("NODE_ENV", "test")] in
  is_process_env obj = true
  ∧ visit (host := h) web_caller false AcceptsExpression
      (MemberExpression obj (Identifier "EXPO_PROJECT_ROOT") false) st
    = (Ok (StringLiteral "/p"), st)
  ∧ visit (host := h) web_caller false RejectsLiteral
      (MemberExpression obj (Identifier "EXPO_PROJECT_ROOT") false) st
    = (Throw TypeError, st).
Proof.
  split; [reflexivity|].
  exact (project_root_inlined
           (host := example_host (example_config VUndefined VUndefined))
           web_caller
           (MemberExpression (Identifier "process") (Identifier "env") false)
           false (process_with [("NODE_ENV", "test")]) eq_refl).
Defined.

Lemma use_static_inlined_witness :
  let h := example_host (example_config VUndefined VUndefined) in
  let obj := MemberExpression (Identifier "process") (Identifier "env") false in
  let st := process_with [("EXPO_PUBLIC_USE_STATIC", "1")] in
  is_process_env obj = true
  ∧ ∃ b : bool,
      visit (host := h) web_caller false AcceptsExpression
        (MemberExpression obj (Identifier "EXPO_PUBLIC_USE_STATIC") false) st
        = (Ok (BooleanLiteral b), st)
      ∧ b = true.
Proof.
  split; [reflexivity|].
  destruct (use_static_inlined
              (host := example_host (example_config VUndefined VUndefined))
              web_caller
              (MemberExpression (Identifier "process") (Identifier "env") false)
              false (process_with [("EXPO_PUBLIC_USE_STATIC", "1")]) eq_refl)
    as (b & Hrun & _ & Hb).
  exists b. split; [exact Hrun|].
  apply Hb. split; [reflexivity | right; reflexivity].
Defined.

Lemma import_mode_read_inlined_witness :
  let h := example_host (example_config (VStr "development") VUndefined) in
  let obj := MemberExpression (Identifier "process") (Identifier "env") false in
  let st := process_with [("NODE_ENV", "development")] in
  platform web_caller = Some "web"
  ∧ "web" ≠ ""
  ∧ is_process_env obj = true
  ∧ fst (visit (host := h) web_caller false AcceptsExpression
           (MemberExpression obj (Identifier (import_mode_var "web")) false) st)
    = Ok (StringLiteral "lazy").
Proof.
  split; [reflexivity|]. split; [discriminate|]. split; [reflexivity|].
  rewrite (import_mode_read_inlined
             (host := example_host (example_config (VStr "development") VUndefined))
             web_caller "web"
             (MemberExpression (Identifier "process") (Identifier "env") false)
             false AcceptsExpression
             (process_with [("NODE_ENV", "development")])
             eq_refl ltac:(discriminate) eq_refl).
  vm_compute. reflexivity.
Defined.

Lemma other_platform_mode_untouched_witness :
  let h := example_host (example_config (VStr "development") VUndefined) in
  let obj := MemberExpression (Identifier "process") (Identifier "env") false in
  let read := MemberExpression obj (Identifier (import_mode_var "ios")) false in
  let st := process_with [("NODE_ENV", "development")] in
  is_process_env obj = true
  ∧ (∀ p, platform web_caller = Some p -> toUpperCase p ≠ toUpperCase "ios")
  ∧ visit (host := h) web_caller false AcceptsExpression read st = (Ok read, st).
Proof.
  assert (Hother : ∀ p, platform web_caller = Some p ->
                        toUpperCase p ≠ toUpperCase "ios").
  { intros p [= <-]. discriminate. }
  split; [reflexivity|]. split; [exact Hother|].
  exact (other_platform_mode_untouched
           (host := example_host (example_config (VStr "development") VUndefined))
           web_caller "ios"
           (MemberExpression (Identifier "process") (Identifier "env") false)
           false false AcceptsExpression
           (process_with [("NODE_ENV", "development")])
           eq_refl Hother).
Defined.

Lemma no_process_env_untouched_witness :
  let h := bare_host (example_config (VStr "production") VUndefined) in
  let st := process_with [("NODE_ENV", "production")] in
  forallb (fun n => negb (mentions_process_env n)) [log_ready] = true
  ∧ expoRouterBabelPlugin (host := h) web_caller [log_ready] st
    = (Ok [log_ready], st).
Proof.
  split; [reflexivity|].
  exact (no_process_env_untouched
           (host := bare_host (example_config (VStr "production") VUndefined))
           web_caller [log_ready]
           (process_with [("NODE_ENV", "production")]) eq_refl).
Defined.

Lemma pass_only_inlines_witness :
  let h := example_host (example_config (VStr "development") VUndefined) in
  let st := process_with [("NODE_ENV", "development")] in
  let body' := [log_env_inlined] in
  let st' := snd (expoRouterBabelPlugin (host := h) web_caller [log_env] st) in
  expoRouterBabelPlugin (host := h) web_caller [log_env] st = (Ok body', st')
  ∧ Forall2 (inlines web_caller (env_get st "NODE_ENV")) [log_env] body'.
Proof.
  split; [vm_compute; reflexivity|].
  refine (proj1 (pass_only_inlines
                   (host := example_host (example_config (VStr "development") VUndefined))
                   web_caller [log_env] _
                   (process_with [("NODE_ENV", "development")]) _ _)).
  vm_compute. reflexivity.
Defined.

Lemma pass_effects_witness :
  let h := example_host (example_config (VStr "development") VUndefined) in
  let st := process_with [("NODE_ENV", "development")] in
  let run := expoRouterBabelPlugin (host := h) web_caller [log_env; for_of_env] st in
  cache_key web_caller "NODE_ENV" = false
  ∧ fst run = Throw TypeError
  ∧ process_env (snd run) !! "NODE_ENV" = process_env st !! "NODE_ENV".
Proof.
  split; [reflexivity|]. split; [vm_compute; reflexivity|].
  refine (proj1 (pass_effects
                   (host := example_host (example_config (VStr "development") VUndefined))
                   web_caller "NODE_ENV" eq_refl [log_env; for_of_env]
                   (process_with [("NODE_ENV", "development")]) _ _ _)).
  apply surjective_pairing.
Defined.

Lemma server_output_shape_witness :
  let h := example_host (example_config VUndefined VUndefined) in
  ("use client" ∈ directives client_module)
  ∧ ∃ out,
      expoRouterServerComponentClientReferencesPlugin (host := h)
        true "/srv" "/srv/components/Foo.js" client_module no_metadata = Ok out
      ∧ directives (fst out) = []
      ∧ List.length (body (fst out)) = 3.
Proof.
  split; [apply list_elem_of_here|].
  pose proof (server_output_shape
                (host := example_host (example_config VUndefined VUndefined))
                "/srv" "/srv/components/Foo.js" client_module no_metadata
                (list_elem_of_here _ _)) as H.
  destruct (expoRouterServerComponentClientReferencesPlugin
              (host := example_host (example_config VUndefined VUndefined))
              true "/srv" "/srv/components/Foo.js" client_module no_metadata)
    as [out|e] eqn:Hrun.
  - destruct H as (Hd & Hl & _). exists out.
    split; [reflexivity|]. split; [exact Hd | exact Hl].
  - vm_compute in Hrun. discriminate.
Defined.

Lemma stub_module_is_final_witness :
  let h := example_host (example_config VUndefined VUndefined) in
  let stubs :=
    {| directives := [];
       body := map (stub "/components/Foo.js") ["a"; "b"; "default"] |} in
  ("use client" ∈ directives client_module)
  ∧ expoRouterServerComponentClientReferencesPlugin (host := h)
      true "/srv" "/srv/components/Foo.js" client_module no_metadata
    = Ok (stubs, no_metadata)
  ∧ expoRouterServerComponentClientReferencesPlugin (host := h)
      false "/srv" "/srv/components/Foo.js" stubs no_metadata
    = Ok (stubs, no_metadata).
Proof.
  split; [apply list_elem_of_here|]. split; [vm_compute; reflexivity|].
  apply (stub_module_is_final
           (host := example_host (example_config VUndefined VUndefined))
           false "/srv" "/srv/components/Foo.js" "/srv" "/srv/components/Foo.js"
           client_module _ no_metadata no_metadata no_metadata
           (list_elem_of_here _ _)).
  vm_compute. reflexivity.
Defined.
